(** * UseCookie: the cookie broker of [cookies.ts]

    A shallow embedding of the [Cookies] class ([get], [set], [subscribe]
    and the interceptor that [#startIntercepting] installs on
    [document.cookie]) and the properties of its specification.

    The broker relies on three collaborators that are not part of the
    repository: the js-cookie codec ([JSCookies.get/set/remove]), the
    browser ([document.cookie], [navigator.cookieEnabled], the property
    descriptor of [Document.prototype.cookie]) and the host's [JSON]
    object.  They are gathered in the class [Platform]; the broker is
    written once, over any platform, and a small in-memory platform
    ([Ref]) is used to run it on concrete inputs.

    How the page is modelled:
    - the static fields of [Cookies] and the browser's state form a record
      [World]; a method is a function from the world to an outcome, which
      is a result or a thrown error, each with the world it leaves;
    - everything the program does that a user can observe ([console.log],
      [Object.defineProperty], the original setter, the calls of
      subscribers) is appended to a trace, in order;
    - a subscriber is known by its identity only and, like the callback of
      [useCookie], does not write cookies or touch the registry when it
      is called;
    - [navigator.cookieEnabled] and the descriptor's [configurable] flag
      do not change while the page lives, and [Object.defineProperty] on
      [document] succeeds when it is reached. *)

From Stdlib Require Import ZArith Ascii String List Bool Lia.
From stdpp Require Import base option list strings gmap fin_maps.

Local Open Scope string_scope.
Local Open Scope Z_scope.

(** ** The JavaScript primitives the broker calls *)

Module JS.

(** [s.includes(sub)] *)
Definition includes (s sub : string) : bool :=
  match String.index 0 sub s with Some _ => true | None => false end.

(** [s.indexOf(sub)]: position of the first occurrence, [-1] if none. *)
Definition indexOf (s sub : string) : Z :=
  match String.index 0 sub s with Some i => Z.of_nat i | None => -1 end.

(** Clamp of an index argument into [0 .. len]. *)
Definition clamp (len : nat) (i : Z) : nat :=
  Z.to_nat (Z.min (Z.max i 0) (Z.of_nat len)).

(** [s.substring(a, b)]: both ends clamped, swapped when [a > b]. *)
Definition substring (s : string) (a b : Z) : string :=
  let a' := clamp (String.length s) a in
  let b' := clamp (String.length s) b in
  String.substring (Nat.min a' b') (Nat.max a' b' - Nat.min a' b') s.

(** [s.startsWith(p)] *)
Definition startsWith (s p : string) : bool := String.prefix p s.

(** Start position of [slice] and [splice]: a negative index counts from
    the end. *)
Definition relative (len : nat) (start : Z) : nat :=
  if start <? 0 then Z.to_nat (Z.max (Z.of_nat len + start) 0)
  else Z.to_nat (Z.min start (Z.of_nat len)).

(** [s.slice(start)] *)
Definition slice (s : string) (start : Z) : string :=
  let from := relative (String.length s) start in
  String.substring from (String.length s - from) s.

Section arrays.
Context {A : Type} `{EqDecision A}.

(** [a.indexOf(x)] with strict equality: first position, [-1] if none. *)
Fixpoint indexOf_from (i : Z) (a : list A) (x : A) : Z :=
  match a with
  | [] => -1
  | y :: a' => if decide (y = x) then i else indexOf_from (i + 1) a' x
  end.

Definition Array_indexOf (a : list A) (x : A) : Z := indexOf_from 0 a x.

(** [a.push(x)] *)
Definition Array_push (a : list A) (x : A) : list A := a ++ [x].

(** [a.splice(start)] with the delete count omitted: every element from
    the start position to the end is removed.  The pair is the array
    as it is left and the removed elements (the call's result). *)
Definition Array_splice (a : list A) (start : Z) : list A * list A :=
  let from := relative (List.length a) start in
  (take from a, drop from a).
End arrays.

End JS.

(** ** Values and options *)

(** The values that flow through [get] and [set].  Numbers are integers:
    nothing in the broker computes with them. *)
#[warnings="-register-all"]
Inductive Value : Type :=
  | VUndefined
  | VNull
  | VBool (b : bool)
  | VNum (n : Z)
  | VStr (s : string)
  | VArr (items : list Value)
  | VObj (fields : list (string * Value)).

(** [typeof v === "string"] *)
Definition is_string (v : Value) : bool :=
  match v with VStr _ => true | _ => false end.

Inductive Expires := Days (n : Z) | At (epoch_ms : Z).
Inductive SameSite := Strict | Lax | NoneSite.

(** [interface CookieOptions] *)
Record CookieOptions : Type := mkOptions {
  expires : option Expires;
  path : option string;
  domain : option string;
  secure : option bool;
  sameSite : option SameSite;
  extra : list (string * Value)
}.

(** The default [options = {}] of [set]. *)
Definition no_options : CookieOptions :=
  mkOptions None None None None None [].

(** ** The platform *)

(** What [JSCookies.get(name)] evaluates to when it is not [undefined].
    Its declared type is [string | undefined], but js-cookie collects the
    cookies in a plain object and returns [jar[name]]: for a name every
    object inherits from [Object.prototype] that is the inherited member,
    a function or an object and not a string. *)
Inductive Found :=
  | FoundString (s : string)
  | FoundMember.

Coercion FoundString : string >-> Found.

(** A string stands for itself where a result of the codec is expected,
    also under [Some]. *)
Arguments Some {A} & a.

(** What the broker needs from its collaborators.
    - [Jar] is the browser's cookie store and [native_set] the original
      setter of [document.cookie] ([setCookie] in the source);
    - [codec_get] is [JSCookies.get(name)], which reads through the
      original getter (never intercepted), [None] being [undefined];
    - [wire_set name raw options] is the string that
      [JSCookies.set(name, raw, options)] assigns to [document.cookie], and
      [wire_remove] the one [JSCookies.remove(name, options)] assigns;
    - [JSON_stringify] and [JSON_parse] are the host's, a [SyntaxError] of
      the latter being [None]. *)
Class Platform : Type := {
  Jar : Type;
  native_set : string -> Jar -> Jar;
  codec_get : string -> Jar -> option Found;
  wire_set : string -> string -> CookieOptions -> string;
  wire_remove : string -> CookieOptions -> string;
  JSON_stringify : Value -> string;
  JSON_parse : string -> option Value
}.

(** A subscriber function, known by its identity: [indexOf] compares
    callbacks with [===]. *)
Definition CookieSubscriber : Type := nat.

(** Names every object inherits from [Object.prototype]: the registry is a
    plain object ([{}]), so [name in registry] and [registry[name]] see
    them too. *)
Definition object_prototype_keys : list string :=
  [ "constructor"; "hasOwnProperty"; "isPrototypeOf"; "propertyIsEnumerable";
    "toLocaleString"; "toString"; "valueOf"; "__proto__";
    "__defineGetter__"; "__defineSetter__"; "__lookupGetter__";
    "__lookupSetter__" ].

Definition inherited (name : string) : bool :=
  bool_decide (name ∈ object_prototype_keys).

(** What the program does that can be observed, in the order it does it. *)
Inductive LogLine :=
  | LogBlocked
  | LogStart
  | LogWrite (name oldJSON newJSON : string).

Inductive Event :=
  | EvLog (line : LogLine)                  (* console.log *)
  | EvDefineProperty                        (* Object.defineProperty(document, "cookie", ..) *)
  | EvSetCookie (value : string)            (* setCookie(value), the original setter *)
  | EvCall (f : CookieSubscriber) (newValue oldValue : Value).   (* f(newValue, oldValue) *)

Inductive Error := TypeError | SyntaxError.

(** ** The state of the page *)

Section world.
Context {P : Platform}.

(** The browser's state and the static fields of [Cookies].  [installed]
    says whether [document] carries the intercepting accessor. *)
Record World : Type := mkWorld {
  jar : Jar;
  cookieEnabled : bool;          (* navigator.cookieEnabled *)
  configurable : bool;           (* the descriptor of Document.prototype.cookie *)
  installed : bool;
  debug : bool;                                   (* Cookies.debug *)
  subscribers : gmap string (list CookieSubscriber);      (* Cookies.#subscribers *)
  isIntercepting : bool;                          (* Cookies.#isIntercepting *)
  trace : list Event
}.

Definition with_jar (j : Jar) (w : World) : World :=
  mkWorld j (cookieEnabled w) (configurable w) (installed w) (debug w)
          (subscribers w) (isIntercepting w) (trace w).

Definition with_installed (b : bool) (w : World) : World :=
  mkWorld (jar w) (cookieEnabled w) (configurable w) b (debug w)
          (subscribers w) (isIntercepting w) (trace w).

Definition with_debug (b : bool) (w : World) : World :=
  mkWorld (jar w) (cookieEnabled w) (configurable w) (installed w) b
          (subscribers w) (isIntercepting w) (trace w).

Definition with_subscribers (r : gmap string (list CookieSubscriber)) (w : World) : World :=
  mkWorld (jar w) (cookieEnabled w) (configurable w) (installed w) (debug w)
          r (isIntercepting w) (trace w).

Definition with_isIntercepting (b : bool) (w : World) : World :=
  mkWorld (jar w) (cookieEnabled w) (configurable w) (installed w) (debug w)
          (subscribers w) b (trace w).

Definition with_trace (t : list Event) (w : World) : World :=
  mkWorld (jar w) (cookieEnabled w) (configurable w) (installed w) (debug w)
          (subscribers w) (isIntercepting w) t.

(** The page as it is loaded: [debug = true], [#subscribers = {}],
    [#isIntercepting = false], nothing done yet. *)
Definition init (j : Jar) (enabled conf : bool) : World :=
  mkWorld j enabled conf false true ∅ false [].

(** *** Computations: state and exceptions *)

Inductive Outcome (A : Type) : Type :=
  | Ret (a : A) (w : World)
  | Throw (e : Error) (w : World).
Global Arguments Ret {A} a w.
Global Arguments Throw {A} e w.

Definition M (A : Type) : Type := World -> Outcome A.

Definition ret {A} (a : A) : M A := fun w => Ret a w.

Definition bind {A B} (m : M A) (k : A -> M B) : M B :=
  fun w => match m w with
           | Ret a w' => k a w'
           | Throw e w' => Throw e w'
           end.

Definition throw {A} (e : Error) : M A := fun w => Throw e w.
Definition gets {A} (f : World -> A) : M A := fun w => Ret (f w) w.
Definition modify (f : World -> World) : M unit := fun w => Ret tt (f w).

(** The state a computation leaves, whether it returns or throws. *)
Definition world_of {A} (o : Outcome A) : World :=
  match o with Ret _ w => w | Throw _ w => w end.

Definition returns {A} (o : Outcome A) : Prop :=
  match o with Ret _ _ => True | Throw _ _ => False end.

Definition value_of {A} (o : Outcome A) : option A :=
  match o with Ret a _ => Some a | Throw _ _ => None end.

End world.

Declare Scope js_scope.
Delimit Scope js_scope with js.
Notation "x <- m ;; k" := (bind m (fun x => k))
  (at level 100, m at next level, right associativity) : js_scope.
Notation "m ;; k" := (bind m (fun _ => k))
  (at level 100, right associativity) : js_scope.

(** ** The broker *)

Record CookieUnsubscriber : Type := mkUnsubscriber {
  unsub_name : string;
  unsub_f : CookieSubscriber
}.

(** What [Cookies.#subscribers[name]] evaluates to. *)
Inductive Slot :=
  | SlotUndefined
  | SlotArray (a : list CookieSubscriber)
  | SlotInherited.

Module Cookies.
Section broker.
Context {P : Platform}.
Local Open Scope js_scope.

Definition emit (e : Event) : M unit :=
  modify (fun w => with_trace (trace w ++ [e]) w).

Definition when (b : bool) (m : M unit) : M unit :=
  if b then m else ret tt.

(** [a.forEach(body)] *)
Fixpoint forEach {A} (a : list A) (body : A -> M unit) : M unit :=
  match a with
  | [] => ret tt
  | x :: a' => body x ;; forEach a' body
  end.

(** A subscriber is opaque to the broker; like the one [useCookie]
    registers, it observes its arguments and touches neither the cookies
    nor the registry. *)
Definition call (f : CookieSubscriber) (newValue oldValue : Value) : M unit :=
  emit (EvCall f newValue oldValue).

(** [setCookie(value)]: the original setter, bound to [document]. *)
Definition setCookie (value : string) : M unit :=
  modify (fun w => with_jar (native_set value (jar w)) w) ;;
  emit (EvSetCookie value).

(** [Cookies.#subscribers[name]] and [name in Cookies.#subscribers] *)
Definition registry_get (name : string) (w : World) : Slot :=
  match subscribers w !! name with
  | Some a => SlotArray a
  | None => if inherited name then SlotInherited else SlotUndefined
  end.

Definition registry_has (name : string) (w : World) : bool :=
  match subscribers w !! name with
  | Some _ => true
  | None => inherited name
  end.

Definition registry_put (name : string) (a : list CookieSubscriber) (w : World) : World :=
  with_subscribers (<[name := a]> (subscribers w)) w.

(** [Cookies.get(name, defaultValue)] *)
Definition get (name : string) (defaultValue : Value) : M Value :=
  res <- gets (fun w => codec_get name (jar w)) ;;
  match res with
  | None => ret defaultValue
  | Some FoundMember => throw TypeError      (* res.startsWith is not a function *)
  | Some (FoundString res) =>
      if JS.startsWith res "json:" then
        match JSON_parse (JS.slice res 5) with
        | Some v => ret v
        | None => throw SyntaxError
        end
      else ret (VStr res)
  end.

(** The write accessor that [#startIntercepting] installs. *)
Definition setter (value : string) : M unit :=
  if negb (JS.includes value "=") then setCookie value
  else
    let name := JS.substring value 0 (JS.indexOf value "=") in
    oldValue <- get name VNull ;;
    setCookie value ;;
    newValue <- get name VNull ;;
    dbg <- gets debug ;;
    when dbg (emit (EvLog (LogWrite name (JSON_stringify oldValue)
                                         (JSON_stringify newValue)))) ;;
    slot <- gets (registry_get name) ;;
    match slot with
    | SlotUndefined => ret tt
    | SlotArray a => forEach a (fun f => call f newValue oldValue)
    | SlotInherited => throw TypeError
    end.

(** [Cookies.#startIntercepting()] *)
Definition startIntercepting : M unit :=
  flag <- gets isIntercepting ;;
  if flag then ret tt
  else
    enabled <- gets cookieEnabled ;;
    if negb enabled then ret tt
    else
      conf <- gets configurable ;;
      if negb conf then emit (EvLog LogBlocked)
      else
        dbg <- gets debug ;;
        when dbg (emit (EvLog LogStart)) ;;
        emit EvDefineProperty ;;
        modify (with_installed true) ;;
        modify (with_isIntercepting true).

(** The closure [subscribe] returns. *)
Definition unsubscribe (u : CookieUnsubscriber) : M unit :=
  slot <- gets (registry_get (unsub_name u)) ;;
  match slot with
  | SlotArray a =>
      modify (registry_put (unsub_name u)
                (fst (JS.Array_splice a (JS.Array_indexOf a (unsub_f u)))))
  | _ => throw TypeError
  end.

(** [Cookies.subscribe(name, f)] *)
Definition subscribe (name : string) (f : CookieSubscriber) : M CookieUnsubscriber :=
  startIntercepting ;;
  has <- gets (registry_has name) ;;
  when (negb has) (modify (registry_put name [])) ;;
  slot <- gets (registry_get name) ;;
  match slot with
  | SlotArray a =>
      modify (registry_put name (JS.Array_push a f)) ;;
      ret (mkUnsubscriber name f)
  | _ => throw TypeError
  end.

(** [document.cookie = value]: the accessor in place decides. *)
Definition document_cookie_assign (value : string) : M unit :=
  inst <- gets installed ;;
  if inst then setter value else setCookie value.

(** [JSCookies.set] and [JSCookies.remove] write through [document.cookie]. *)
Definition JSCookies_set (name raw : string) (options : CookieOptions) : M unit :=
  document_cookie_assign (wire_set name raw options).

Definition JSCookies_remove (name : string) (options : CookieOptions) : M unit :=
  document_cookie_assign (wire_remove name options).

(** [Cookies.set(name, value, options)] *)
Definition set (name : string) (value : Value) (options : CookieOptions) : M unit :=
  match value with
  | VUndefined => JSCookies_remove name options
  | VStr s => JSCookies_set name s options
  | _ => JSCookies_set name ("json:" +:+ JSON_stringify value) options
  end.

End broker.
End Cookies.

(** ** Whole runs of a page *)

(** What a script on the page can do with the broker and with
    [document.cookie]. *)
Inductive Op :=
  | OpSubscribe (name : string) (f : CookieSubscriber)
  | OpUnsubscribe (u : CookieUnsubscriber)
  | OpGet (name : string) (defaultValue : Value)
  | OpSet (name : string) (value : Value) (options : CookieOptions)
  | OpAssign (value : string)          (* document.cookie = value *)
  | OpDebug (b : bool).                (* Cookies.debug = b *)

Section runs.
Context {P : Platform}.

Definition step (w : World) (op : Op) : World :=
  match op with
  | OpSubscribe name f => world_of (Cookies.subscribe name f w)
  | OpUnsubscribe u => world_of (Cookies.unsubscribe u w)
  | OpGet name d => world_of (Cookies.get name d w)
  | OpSet name v o => world_of (Cookies.set name v o w)
  | OpAssign value => world_of (Cookies.document_cookie_assign value w)
  | OpDebug b => with_debug b w
  end.

Definition run (ops : list Op) (w : World) : World := fold_left step ops w.

(** Counting in a trace. *)
Definition is_define (e : Event) : bool :=
  match e with EvDefineProperty => true | _ => false end.

Definition is_call (e : Event) : bool :=
  match e with EvCall _ _ _ => true | _ => false end.

Definition installations (w : World) : nat :=
  List.length (List.filter is_define (trace w)).

Definition notifications (w : World) : list Event :=
  List.filter is_call (trace w).

End runs.

(** ** Vocabulary of the statements *)

Section vocabulary.
Context {P : Platform}.

(** The page after the original setter ran on [value]. *)
Definition written (value : string) (w : World) : World :=
  let w' := with_jar (native_set value (jar w)) w in
  with_trace (trace w' ++ [EvSetCookie value]) w'.

(** The callbacks registered under [name], in subscription order. *)
Definition callbacks (name : string) (w : World) : list CookieSubscriber :=
  match subscribers w !! name with Some a => a | None => [] end.

(** The name the interceptor extracts from a written string. *)
Definition name_of (value : string) : string :=
  JS.substring value 0 (JS.indexOf value "=").

(** The debug line of an intercepted write, when [Cookies.debug] is on. *)
Definition logged (name : string) (oldValue newValue : Value) (w : World) : World :=
  if debug w
  then with_trace (trace w ++ [EvLog (LogWrite name (JSON_stringify oldValue)
                                                   (JSON_stringify newValue))]) w
  else w.

(** Every callback of [name] called with [(newValue, oldValue)]. *)
Definition dispatched (name : string) (newValue oldValue : Value) (w : World) : World :=
  with_trace (trace w ++ List.map (fun f => EvCall f newValue oldValue) (callbacks name w)) w.

(** The events of [w'] that came after [w]. *)
Definition since (w w' : World) : list Event :=
  drop (List.length (trace w)) (trace w').

(** The page after [#startIntercepting] ran. *)
Definition started (w : World) : World :=
  if isIntercepting w then w
  else if negb (cookieEnabled w) then w
  else if negb (configurable w) then with_trace (trace w ++ [EvLog LogBlocked]) w
  else
    let w1 := if debug w then with_trace (trace w ++ [EvLog LogStart]) w else w in
    with_isIntercepting true
      (with_installed true (with_trace (trace w1 ++ [EvDefineProperty]) w1)).

(** Nothing about the installation differs between [w] and [w']. *)
Definition same_setup (w w' : World) : Prop :=
  cookieEnabled w' = cookieEnabled w /\ configurable w' = configurable w /\
  installed w' = installed w /\ isIntercepting w' = isIntercepting w /\
  installations w' = installations w.

(** The flag, the accessor and the number of installations agree. *)
Definition consistent (w : World) : Prop :=
  installed w = isIntercepting w /\
  installations w = if isIntercepting w then 1%nat else 0%nat.

(** A page on which interception cannot be installed and has not been. *)
Definition degraded (w : World) : Prop :=
  cookieEnabled w && configurable w = false /\
  isIntercepting w = false /\ installed w = false /\
  installations w = 0%nat /\ notifications w = [].

(** An intercepted write in which both reads, the write, the debug line
    and the calls all take place. *)
Definition intercepted_write (value : string) (w : World) : Prop :=
  exists oldValue newValue,
    Cookies.get (name_of value) VNull w = Ret oldValue w /\
    Cookies.get (name_of value) VNull (written value w)
      = Ret newValue (written value w) /\
    world_of (Cookies.setter value w)
      = dispatched (name_of value) newValue oldValue
          (logged (name_of value) oldValue newValue (written value w)).

(** When an assignment to [document.cookie] returns: the interceptor is not
    installed, or the string has no "=", or the interceptor can read the
    old and the new value and the name's registry entry is its own. *)
Definition accepted (value : string) (w : World) : Prop :=
  installed w = false
  \/ JS.includes value "=" = false
  \/ (exists oldValue newValue,
        Cookies.get (name_of value) VNull w = Ret oldValue w /\
        Cookies.get (name_of value) VNull (written value w)
          = Ret newValue (written value w) /\
        Cookies.registry_get (name_of value) w <> SlotInherited).

(** [get] after a [set] that returned gives the value back. *)
Definition round_trips (name : string) (v : Value) (o : CookieOptions)
    (d : Value) (w : World) : Prop :=
  forall w', Cookies.set name v o w = Ret tt w' -> Cookies.get name d w' = Ret v w'.

(** The string [set] hands to [document.cookie]. *)
Definition wire_of (name : string) (value : Value) (options : CookieOptions) : string :=
  match value with
  | VUndefined => wire_remove name options
  | VStr s => wire_set name s options
  | _ => wire_set name ("json:" +:+ JSON_stringify value) options
  end.

End vocabulary.

(** ** A platform to run the broker on

    An in-memory jar with a codec that writes [name=value] followed by an
    expiry mark, and a JSON printer and parser for the values above
    (integers, no escapes beyond the quote and the backslash). *)

Module Ref.

Definition dquote : ascii := "034"%char.

(** [split c s]: the text before and after the first [c] of [s]. *)
Fixpoint split (c : ascii) (s : string) : option (string * string) :=
  match s with
  | EmptyString => None
  | String a s' =>
      if Ascii.eqb a c then Some (EmptyString, s')
      else match split c s' with
           | Some (l, r) => Some (String a l, r)
           | None => None
           end
  end.

Definition attributes (o : CookieOptions) : string :=
  match expires o with
  | Some (Days n) => if n <? 0 then "; expires=past" else "; expires=later"
  | Some (At _) => "; expires=later"
  | None => EmptyString
  end.

Definition ref_wire_set (name raw : string) (o : CookieOptions) : string :=
  name +:+ "=" +:+ raw +:+ attributes o.

(** js-cookie removes by writing an empty value that expired yesterday. *)
Definition ref_wire_remove (name : string) (o : CookieOptions) : string :=
  ref_wire_set name EmptyString
    (mkOptions (Some (Days (-1))) (path o) (domain o) (secure o) (sameSite o) (extra o)).

Definition ref_native_set (value : string) (j : gmap string string) : gmap string string :=
  let (pair, attrs) :=
    match split ";" value with Some (p, a) => (p, a) | None => (value, EmptyString) end in
  let (name, raw) :=
    match split "=" pair with Some (n, r) => (n, r) | None => (EmptyString, pair) end in
  if JS.includes attrs "expires=past" then delete name j else <[name := raw]> j.

(** js-cookie fills a plain object with the cookies it finds, skipping
    every name that is already [in] the object, and returns the member
    under [name]: for a name of [Object.prototype] that is the inherited
    member, whatever is stored. *)
Definition ref_codec_get (name : string) (j : gmap string string) : option Found :=
  if inherited name then Some FoundMember
  else match j !! name with
       | Some raw => Some (FoundString raw)
       | None => None
       end.

(** *** JSON *)

Definition digit (n : Z) : ascii := ascii_of_nat (Z.to_nat (48 + n)).

Fixpoint digits (fuel : nat) (n : Z) (acc : string) : string :=
  match fuel with
  | O => acc
  | S fuel =>
      let acc' := String (digit (n mod 10)) acc in
      if n <? 10 then acc' else digits fuel (n / 10) acc'
  end.

Definition print_Z (n : Z) : string :=
  if n <? 0 then String "-" (digits (Z.to_nat (Z.log2 (- n)) + 1) (- n) EmptyString)
  else digits (Z.to_nat (Z.log2 n) + 1) n EmptyString.

Fixpoint escape (s : string) : string :=
  match s with
  | EmptyString => EmptyString
  | String a s' =>
      if Ascii.eqb a dquote || Ascii.eqb a "\"
      then String "\" (String a (escape s'))
      else String a (escape s')
  end.

Definition quote (s : string) : string :=
  String dquote (escape s +:+ String dquote EmptyString).

Fixpoint join (sep : string) (l : list string) : string :=
  match l with
  | [] => EmptyString
  | [x] => x
  | x :: l' => x +:+ sep +:+ join sep l'
  end.

(** [JSON.stringify]: [undefined] prints as [null] in an array and drops
    the field in an object. *)
Fixpoint stringify (v : Value) : string :=
  match v with
  | VUndefined => "undefined"
  | VNull => "null"
  | VBool true => "true"
  | VBool false => "false"
  | VNum n => print_Z n
  | VStr s => quote s
  | VArr items =>
      "[" +:+ join "," (List.map (fun x =>
                 match x with VUndefined => "null" | _ => stringify x end) items) +:+ "]"
  | VObj fields =>
      "{" +:+ join ","
        ((fix go (fs : list (string * Value)) : list string :=
            match fs with
            | [] => []
            | (k, VUndefined) :: fs' => go fs'
            | (k, x) :: fs' => (quote k +:+ ":" +:+ stringify x) :: go fs'
            end) fields) +:+ "}"
  end.

Definition is_digit (a : ascii) : bool :=
  let n := nat_of_ascii a in (48 <=? n)%nat && (n <=? 57)%nat.

Fixpoint read_digits (acc : Z) (s : string) : Z * string :=
  match s with
  | String a s' =>
      if is_digit a then read_digits (10 * acc + (Z.of_nat (nat_of_ascii a) - 48)) s'
      else (acc, s)
  | EmptyString => (acc, s)
  end.

(** An integer without a sign: no leading zero. *)
Definition read_natural (s : string) : option (Z * string) :=
  match s with
  | String "0" s' => Some (0, s')
  | String a _ => if is_digit a then Some (read_digits 0 s) else None
  | EmptyString => None
  end.

Definition read_number (s : string) : option (Z * string) :=
  match s with
  | String "-" s' =>
      match read_natural s' with Some (n, r) => Some (- n, r) | None => None end
  | _ => read_natural s
  end.

(** The text of a string after its opening quote. *)
Fixpoint read_string (s : string) : option (string * string) :=
  match s with
  | EmptyString => None
  | String a s' =>
      if Ascii.eqb a dquote then Some (EmptyString, s')
      else if Ascii.eqb a "\" then
        match s' with
        | String b s'' =>
            if Ascii.eqb b dquote || Ascii.eqb b "\" then
              match read_string s'' with
              | Some (t, r) => Some (String b t, r)
              | None => None
              end
            else None
        | EmptyString => None
        end
      else match read_string s' with
           | Some (t, r) => Some (String a t, r)
           | None => None
           end
  end.

Definition keyword (k : string) (v : Value) (s : string) : option (Value * string) :=
  if String.prefix k s
  then Some (v, String.substring (String.length k) (String.length s - String.length k) s)
  else None.

Fixpoint read_value (fuel : nat) (s : string) : option (Value * string) :=
  match fuel with
  | O => None
  | S fuel =>
      match s with
      | String "n" _ => keyword "null" VNull s
      | String "t" _ => keyword "true" (VBool true) s
      | String "f" _ => keyword "false" (VBool false) s
      | String "[" (String "]" r) => Some (VArr [], r)
      | String "[" r => read_items fuel r []
      | String "{" (String "}" r) => Some (VObj [], r)
      | String "{" r => read_fields fuel r []
      | String a r =>
          if Ascii.eqb a dquote then
            match read_string r with
            | Some (t, r') => Some (VStr t, r')
            | None => None
            end
          else match read_number s with
               | Some (n, r') => Some (VNum n, r')
               | None => None
               end
      | EmptyString => None
      end
  end
with read_items (fuel : nat) (s : string) (acc : list Value) : option (Value * string) :=
  match fuel with
  | O => None
  | S fuel =>
      match read_value fuel s with
      | Some (v, String "," r) => read_items fuel r (v :: acc)
      | Some (v, String "]" r) => Some (VArr (List.rev (v :: acc)), r)
      | _ => None
      end
  end
with read_fields (fuel : nat) (s : string) (acc : list (string * Value)) : option (Value * string) :=
  match fuel with
  | O => None
  | S fuel =>
      match s with
      | String a s' =>
          if Ascii.eqb a dquote then
            match read_string s' with
            | Some (k, String ":" r) =>
                match read_value fuel r with
                | Some (v, String "," r') => read_fields fuel r' ((k, v) :: acc)
                | Some (v, String "}" r') => Some (VObj (List.rev ((k, v) :: acc)), r')
                | _ => None
                end
            | _ => None
            end
          else None
      | EmptyString => None
      end
  end.

(** [JSON.parse]: the whole text must be one value. *)
Definition parse (s : string) : option Value :=
  match read_value (S (String.length s)) s with
  | Some (v, EmptyString) => Some v
  | _ => None
  end.

Definition platform : Platform := {|
  Jar := gmap string string;
  native_set := ref_native_set;
  codec_get := ref_codec_get;
  wire_set := ref_wire_set;
  wire_remove := ref_wire_remove;
  JSON_stringify := stringify;
  JSON_parse := parse
|}.

(** A fresh page on this platform. *)
Definition page (enabled conf : bool) : @World platform :=
  @init platform ∅ enabled conf.

End Ref.

(** ** The hook and more vocabulary *)

Definition is_subscribe (op : Op) : bool :=
  match op with OpSubscribe _ _ => true | _ => false end.

(** How many times a run calls [subscribe]. *)
Definition subscriptions (ops : list Op) : nat :=
  List.length (List.filter is_subscribe ops).

Definition is_blocked (e : Event) : bool :=
  match e with EvLog LogBlocked => true | _ => false end.

Definition is_log (e : Event) : bool :=
  match e with EvLog _ => true | _ => false end.

Section more_vocabulary.
Context {P : Platform}.

(** How many times the "interception has been blocked" line was logged. *)
Definition blocked_lines (w : World) : nat :=
  List.length (List.filter is_blocked (trace w)).

(** No own entry of the registry hides a name of [Object.prototype]. *)
Definition plain_registry (w : World) : Prop :=
  forall name, inherited name = true -> subscribers w !! name = None.

(** Two pages that differ at most in [Cookies.debug] and in what was
    logged. *)
Definition same_but_log (w1 w2 : World) : Prop :=
  jar w1 = jar w2 /\ cookieEnabled w1 = cookieEnabled w2 /\
  configurable w1 = configurable w2 /\ installed w1 = installed w2 /\
  subscribers w1 = subscribers w2 /\ isIntercepting w1 = isIntercepting w2 /\
  List.filter (fun e => negb (is_log e)) (trace w1)
  = List.filter (fun e => negb (is_log e)) (trace w2).

(** A page nobody subscribed on: the accessor is the browser's, the
    registry is empty and nothing but writes was observed. *)
Definition untouched (w : World) : Prop :=
  installed w = false /\ isIntercepting w = false /\ subscribers w = ∅
  /\ Forall (fun e => exists value, e = EvSetCookie value) (trace w).

End more_vocabulary.

Definition is_write (e : Event) : bool :=
  match e with EvSetCookie _ => true | _ => false end.

(** Whoever is registered or was called has subscribed in [done]. *)
Definition only_subscribed {P : Platform} (done : list Op) (w : World) : Prop :=
  (forall name f, f ∈ callbacks name w -> In (OpSubscribe name f) done)
  /\ (forall f newValue oldValue,
        In (EvCall f newValue oldValue) (trace w) ->
        exists name, In (OpSubscribe name f) done).

(** The same run with [Cookies.debug] switched off throughout. *)
Definition mute_op (op : Op) : Op :=
  match op with OpDebug _ => OpDebug false | _ => op end.

Definition mute (ops : list Op) : list Op := List.map mute_op ops.

(** [useCookie(name, defaultValue, options)], the hook of the package.
    The framework keeps the state cell [result] and decides when the
    effect and its cleanup run; what they do is below.  [hook_listener] is
    the arrow function the effect hands to [subscribe], a new function
    object each time the effect runs. *)
Module UseCookie.

Record Hook : Type := mkHook {
  hook_name : string;
  hook_default : Value;
  hook_options : CookieOptions;
  hook_listener : CookieSubscriber
}.

Section hook.
Context {P : Platform}.
Local Open Scope js_scope.

(** The body of the effect: [setResult(Cookies.get(name, defaultValue))],
    then the subscription.  The pair is the value handed to [setResult]
    and the closure the cleanup will call. *)
Definition effect (h : Hook) : M (Value * CookieUnsubscriber) :=
  current <- Cookies.get (hook_name h) (hook_default h) ;;
  unsubscribe <- Cookies.subscribe (hook_name h) (hook_listener h) ;;
  ret (current, unsubscribe).

(** The cleanup the effect returns: [() => { unsubscribe() }]. *)
Definition cleanup (unsubscribe : CookieUnsubscriber) : M unit :=
  Cookies.unsubscribe unsubscribe.

(** The setter the hook returns. *)
Definition setter (h : Hook) (newValue : Value) : M unit :=
  Cookies.set (hook_name h) newValue (hook_options h).

(** The state cell after the listener [(newValue) => setResult(newValue)]
    saw the events [evs], starting from [current]. *)
Fixpoint result (listener : CookieSubscriber) (current : Value) (evs : list Event) : Value :=
  match evs with
  | [] => current
  | EvCall f newValue _ :: evs' =>
      result listener (if decide (f = listener) then newValue else current) evs'
  | _ :: evs' => result listener current evs'
  end.

End hook.
End UseCookie.

(** * Properties *)

(** ** The primitives *)

Example splice_from_index : JS.Array_splice [1; 2; 3]%nat 1 = ([1]%nat, [2; 3]%nat).
Proof. reflexivity. Qed.

Example splice_minus_one : JS.Array_splice [1; 2; 3]%nat (-1) = ([1; 2]%nat, [3]%nat).
Proof. reflexivity. Qed.

Example splice_minus_one_empty : JS.Array_splice (@nil nat) (-1) = ([], []).
Proof. reflexivity. Qed.

Example indexOf_first_of_two : JS.Array_indexOf [7; 5; 7]%nat 7%nat = 0.
Proof. reflexivity. Qed.

Example indexOf_missing : JS.Array_indexOf [7; 5]%nat 3%nat = -1.
Proof. reflexivity. Qed.

Example substring_swaps : JS.substring "abc" 2 0 = "ab".
Proof. reflexivity. Qed.

Example slice_after_prefix : JS.slice "json:20" 5 = "20".
Proof. reflexivity. Qed.

Example name_of_write : name_of "theme=dark; path=/" = "theme".
Proof. reflexivity. Qed.

Example name_of_first_equals : name_of "a=b=c" = "a".
Proof. reflexivity. Qed.

Example inherited_toString : inherited "toString" = true /\ inherited "theme" = false.
Proof. split; reflexivity. Qed.

Lemma index_includes s sub :
  JS.includes s sub = true -> exists i, String.index 0 sub s = Some i.
Proof. unfold JS.includes. destruct (String.index 0 sub s); [eauto | discriminate]. Qed.

Lemma substring_all s : String.substring 0 (String.length s) s = s.
Proof. induction s as [|a s IH]; simpl; [reflexivity | now rewrite IH]. Qed.

Lemma substring_skip p s :
  String.substring (String.length p) (String.length s) (p +:+ s) = s.
Proof. induction p as [|a p IH]; simpl; [apply substring_all | exact IH]. Qed.

Lemma length_append p s :
  String.length (p +:+ s) = (String.length p + String.length s)%nat.
Proof. induction p as [|a p IH]; simpl; [reflexivity | now rewrite IH]. Qed.

(** A string that [set] prefixed is recognised by [get], which recovers
    the text after the prefix. *)
Lemma startsWith_json text : JS.startsWith ("json:" +:+ text) "json:" = true.
Proof. destruct text; reflexivity. Qed.

Lemma slice_json text : JS.slice ("json:" +:+ text) 5 = text.
Proof.
  unfold JS.slice, JS.relative. rewrite length_append.
  change (String.length "json:") with 5%nat.
  replace (5 <? 0) with false by reflexivity.
  replace (Z.to_nat (Z.min 5 (Z.of_nat (5 + String.length text)))) with 5%nat by lia.
  replace (5 + String.length text - 5)%nat with (String.length text) by lia.
  apply (substring_skip "json:").
Qed.

Section array_facts.
Context {A : Type} `{EqDecision A}.

Lemma indexOf_from_absent (a : list A) x i :
  x ∉ a -> JS.indexOf_from i a x = -1.
Proof.
  revert i. induction a as [|y a IH]; intros i Hx; simpl; [reflexivity|].
  destruct (decide (y = x)) as [->|_]; [exfalso; apply Hx; left|].
  apply IH. intros Hin. apply Hx. now right.
Qed.

Lemma indexOf_from_first (pre post : list A) x i :
  x ∉ pre -> JS.indexOf_from i (pre ++ x :: post) x = i + Z.of_nat (List.length pre).
Proof.
  revert i. induction pre as [|y pre IH]; intros i Hx; simpl.
  - destruct (decide (x = x)); [lia | congruence].
  - destruct (decide (y = x)) as [->|_]; [exfalso; apply Hx; left|].
    rewrite IH; [lia|]. intros Hin. apply Hx. now right.
Qed.

(** [a.splice(a.indexOf(x))] when [x] is in [a]: [x] goes, and so does
    everything behind it. *)
Lemma splice_indexOf_present (pre post : list A) x :
  x ∉ pre ->
  JS.Array_splice (pre ++ x :: post) (JS.Array_indexOf (pre ++ x :: post) x)
  = (pre, x :: post).
Proof.
  intros Hx. unfold JS.Array_splice, JS.Array_indexOf.
  rewrite indexOf_from_first by exact Hx. unfold JS.relative.
  replace (0 + Z.of_nat (List.length pre) <? 0) with false by (symmetry; apply Z.ltb_ge; lia).
  rewrite length_app. simpl.
  replace (Z.to_nat (Z.min (0 + Z.of_nat (List.length pre))
                           (Z.of_nat (List.length pre + S (List.length post)))))
    with (List.length pre) by lia.
  now rewrite take_app_length, drop_app_length.
Qed.

(** [a.splice(-1)], which is what the call is when [x] is not in [a]:
    the last element goes. *)
Lemma splice_indexOf_absent (a : list A) x :
  x ∉ a ->
  JS.Array_splice a (JS.Array_indexOf a x)
  = (take (List.length a - 1) a, drop (List.length a - 1) a).
Proof.
  intros Hx. unfold JS.Array_splice, JS.Array_indexOf.
  rewrite indexOf_from_absent by exact Hx. unfold JS.relative.
  replace (-1 <? 0) with true by reflexivity.
  replace (Z.to_nat (Z.max (Z.of_nat (List.length a) + -1) 0))
    with (List.length a - 1)%nat by lia.
  reflexivity.
Qed.
End array_facts.

(** ** The broker's operations, one by one *)

Section broker_facts.
Context {P : Platform}.
Implicit Types (w : World) (name value : string) (f : CookieSubscriber).

Lemma with_trace_same w : with_trace (trace w) w = w.
Proof. destruct w; reflexivity. Qed.

Lemma with_trace_nothing w : with_trace (trace w ++ []) w = w.
Proof. rewrite app_nil_r. apply with_trace_same. Qed.

Lemma dispatched_nobody name newValue oldValue w :
  callbacks name w = [] -> dispatched name newValue oldValue w = w.
Proof. unfold dispatched. intros ->. apply with_trace_nothing. Qed.

(** On the reference codec, as on js-cookie, a name of [Object.prototype]
    is answered with the inherited member whatever the jar holds, and
    only such a name is. *)
Lemma ref_codec_get_member (name : string) (j : gmap string string) :
  Ref.ref_codec_get name j = Some FoundMember <-> inherited name = true.
Proof.
  unfold Ref.ref_codec_get. destruct (inherited name).
  - split; reflexivity.
  - split; [|discriminate]. destruct (j !! name); discriminate.
Qed.

(** *** get *)

Lemma get_absent name d w :
  codec_get name (jar w) = None -> Cookies.get name d w = Ret d w.
Proof. intros H. unfold Cookies.get, bind, gets, ret. now rewrite H. Qed.

Lemma get_plain name d w (res : string) :
  codec_get name (jar w) = Some res -> JS.startsWith res "json:" = false ->
  Cookies.get name d w = Ret (VStr res) w.
Proof. intros H Hp. unfold Cookies.get, bind, gets, ret. now rewrite H, Hp. Qed.

Lemma get_structured name d w (res : string) v :
  codec_get name (jar w) = Some res -> JS.startsWith res "json:" = true ->
  JSON_parse (JS.slice res 5) = Some v ->
  Cookies.get name d w = Ret v w.
Proof. intros H Hp Hv. unfold Cookies.get, bind, gets, ret. now rewrite H, Hp, Hv. Qed.

Lemma get_corrupt name d w (res : string) :
  codec_get name (jar w) = Some res -> JS.startsWith res "json:" = true ->
  JSON_parse (JS.slice res 5) = None ->
  Cookies.get name d w = Throw SyntaxError w.
Proof. intros H Hp Hv. unfold Cookies.get, bind, gets, throw. now rewrite H, Hp, Hv. Qed.

(** [get] reads only. *)
Lemma get_member name d w :
  codec_get name (jar w) = Some FoundMember -> Cookies.get name d w = Throw TypeError w.
Proof. intros H. unfold Cookies.get, bind, gets, throw. now rewrite H. Qed.

Lemma get_world name d w : world_of (Cookies.get name d w) = w.
Proof.
  unfold Cookies.get, bind, gets, ret, throw.
  destruct (codec_get name (jar w)) as [[res|]|]; [|reflexivity|reflexivity].
  destruct (JS.startsWith res "json:"); [|reflexivity].
  now destruct (JSON_parse (JS.slice res 5)).
Qed.

Lemma get_Ret name d w v w' : Cookies.get name d w = Ret v w' -> w' = w.
Proof. intros H. rewrite <- (get_world name d w), H. reflexivity. Qed.

Lemma get_Throw name d w e w' : Cookies.get name d w = Throw e w' -> w' = w.
Proof. intros H. rewrite <- (get_world name d w), H. reflexivity. Qed.

(** [get] raises in two cases only: the codec's result is not a string,
    or it is "json:" followed by a text the parser rejects. *)
Lemma get_Throw_inv name d w e w' :
  Cookies.get name d w = Throw e w' ->
  (e = TypeError /\ codec_get name (jar w) = Some FoundMember)
  \/ (e = SyntaxError /\ exists res : string,
        codec_get name (jar w) = Some (FoundString res)
        /\ JS.startsWith res "json:" = true
        /\ JSON_parse (JS.slice res 5) = None).
Proof.
  unfold Cookies.get, bind, gets, ret, throw.
  destruct (codec_get name (jar w)) as [[res|]|]; [| |discriminate].
  - destruct (JS.startsWith res "json:") eqn:Hp; [|discriminate].
    destruct (JSON_parse (JS.slice res 5)) eqn:Hv; [discriminate|].
    intros [= <- <-]. right. split; [reflexivity|]. now exists res.
  - intros [= <- <-]. now left.
Qed.

(** *** The original setter and the notification loop *)

Lemma setCookie_written value w : Cookies.setCookie value w = Ret tt (written value w).
Proof. reflexivity. Qed.

Lemma forEach_call (a : list CookieSubscriber) newValue oldValue w :
  Cookies.forEach a (fun f => Cookies.call f newValue oldValue) w
  = Ret tt (with_trace (trace w ++ List.map (fun f => EvCall f newValue oldValue) a) w).
Proof.
  revert w. induction a as [|f a IH]; intros w; simpl.
  - unfold ret. now rewrite with_trace_nothing.
  - unfold bind at 1. unfold Cookies.call, Cookies.emit, modify.
    rewrite IH. simpl. now rewrite <- app_assoc.
Qed.

(** *** The interceptor *)

Lemma setter_passes value w :
  JS.includes value "=" = false -> Cookies.setter value w = Ret tt (written value w).
Proof. intros H. unfold Cookies.setter. now rewrite H. Qed.

(** When the old value cannot be read, nothing else happens. *)
Lemma setter_old_unreadable value w e :
  JS.includes value "=" = true ->
  Cookies.get (name_of value) VNull w = Throw e w ->
  Cookies.setter value w = Throw e w.
Proof.
  intros H Hold. unfold Cookies.setter. rewrite H. simpl.
  fold (name_of value). unfold bind at 1. now rewrite Hold.
Qed.

(** When the new value cannot be read, the write is done and nobody is
    called. *)
Lemma setter_new_unreadable value w oldValue e :
  JS.includes value "=" = true ->
  Cookies.get (name_of value) VNull w = Ret oldValue w ->
  Cookies.get (name_of value) VNull (written value w) = Throw e (written value w) ->
  Cookies.setter value w = Throw e (written value w).
Proof.
  intros H Hold Hnew. unfold Cookies.setter. rewrite H. simpl.
  fold (name_of value). unfold bind at 1. rewrite Hold.
  unfold bind at 1. rewrite setCookie_written.
  unfold bind at 1. now rewrite Hnew.
Qed.

(** When both reads succeed: the write, the debug line, the calls. *)
Lemma setter_intercepts value w oldValue newValue :
  JS.includes value "=" = true ->
  Cookies.get (name_of value) VNull w = Ret oldValue w ->
  Cookies.get (name_of value) VNull (written value w) = Ret newValue (written value w) ->
  let w1 := logged (name_of value) oldValue newValue (written value w) in
  Cookies.setter value w =
    match Cookies.registry_get (name_of value) w with
    | SlotInherited => Throw TypeError w1
    | _ => Ret tt (dispatched (name_of value) newValue oldValue w1)
    end.
Proof.
  intros H Hold Hnew w1. unfold Cookies.setter. rewrite H. simpl.
  fold (name_of value). unfold bind at 1. rewrite Hold.
  unfold bind at 1. rewrite setCookie_written.
  unfold bind at 1. rewrite Hnew.
  unfold bind at 1. unfold gets at 1.
  unfold bind at 1.
  assert (Hlog : Cookies.when (debug (written value w))
                   (Cookies.emit (EvLog (LogWrite (name_of value)
                      (JSON_stringify oldValue) (JSON_stringify newValue))))
                   (written value w) = Ret tt w1).
  { unfold w1, logged, Cookies.when. now destruct (debug (written value w)). }
  rewrite Hlog. unfold bind, gets.
  assert (Hreg : Cookies.registry_get (name_of value) w1
                 = Cookies.registry_get (name_of value) w).
  { unfold w1, logged. now destruct (debug (written value w)). }
  assert (Hcb : callbacks (name_of value) w1 = callbacks (name_of value) w).
  { unfold w1, logged. now destruct (debug (written value w)). }
  rewrite Hreg. unfold dispatched. rewrite Hcb.
  unfold Cookies.registry_get, callbacks.
  destruct (subscribers w !! name_of value) as [a|].
  - apply forEach_call.
  - destruct (inherited (name_of value)); [reflexivity|].
    unfold ret. now rewrite with_trace_nothing.
Qed.

Lemma setter_cases value w :
  (JS.includes value "=" = false /\ Cookies.setter value w = Ret tt (written value w))
  \/ (JS.includes value "=" = true /\ exists e,
      Cookies.get (name_of value) VNull w = Throw e w /\
      Cookies.setter value w = Throw e w)
  \/ (JS.includes value "=" = true /\ exists oldValue e,
      Cookies.get (name_of value) VNull w = Ret oldValue w /\
      Cookies.get (name_of value) VNull (written value w) = Throw e (written value w) /\
      Cookies.setter value w = Throw e (written value w))
  \/ (JS.includes value "=" = true /\ exists oldValue newValue,
      Cookies.get (name_of value) VNull w = Ret oldValue w /\
      Cookies.get (name_of value) VNull (written value w) = Ret newValue (written value w) /\
      Cookies.setter value w =
        match Cookies.registry_get (name_of value) w with
        | SlotInherited =>
            Throw TypeError (logged (name_of value) oldValue newValue (written value w))
        | _ => Ret tt (dispatched (name_of value) newValue oldValue
                         (logged (name_of value) oldValue newValue (written value w)))
        end).
Proof.
  destruct (JS.includes value "=") eqn:Hin.
  2:{ left. split; [reflexivity|]. now apply setter_passes. }
  right.
  destruct (Cookies.get (name_of value) VNull w) as [oldValue w0|e w0] eqn:Hold.
  2:{ left. apply get_Throw in Hold as Hw0. subst w0.
      split; [reflexivity|]. exists e. split; [reflexivity|].
      now apply setter_old_unreadable. }
  apply get_Ret in Hold as Hw0. subst w0. right.
  destruct (Cookies.get (name_of value) VNull (written value w))
    as [newValue w1|e w1] eqn:Hnew.
  2:{ left. apply get_Throw in Hnew as Hw1. subst w1.
      split; [reflexivity|]. exists oldValue, e. split; [reflexivity|].
      split; [reflexivity|]. now apply setter_new_unreadable with oldValue. }
  apply get_Ret in Hnew as Hw1. subst w1. right.
  split; [reflexivity|]. exists oldValue, newValue.
  split; [reflexivity|]. split; [reflexivity|].
  now apply setter_intercepts.
Qed.

(** *** Assignments to [document.cookie], and [set] *)

Lemma assign_native value w :
  installed w = false ->
  Cookies.document_cookie_assign value w = Ret tt (written value w).
Proof. intros H. unfold Cookies.document_cookie_assign, bind, gets. now rewrite H. Qed.

Lemma assign_intercepted value w :
  installed w = true ->
  Cookies.document_cookie_assign value w = Cookies.setter value w.
Proof. intros H. unfold Cookies.document_cookie_assign, bind, gets. now rewrite H. Qed.

Lemma set_assigns name v o :
  Cookies.set name v o = Cookies.document_cookie_assign (wire_of name v o).
Proof. now destruct v. Qed.

(** An assignment that returns has written. *)
Lemma setter_Ret_jar value w w' :
  Cookies.setter value w = Ret tt w' -> jar w' = native_set value (jar w).
Proof.
  intros H.
  destruct (setter_cases value w)
    as [[_ E]|[(_ & e & _ & E)|[(_ & o & e & _ & _ & E)|(_ & o & n & _ & _ & E)]]];
    rewrite E in H; try discriminate.
  - now injection H as <-.
  - destruct (Cookies.registry_get (name_of value) w); try discriminate;
      injection H as <-; unfold dispatched, logged;
      now destruct (debug (written value w)).
Qed.

Lemma assign_Ret_jar value w w' :
  Cookies.document_cookie_assign value w = Ret tt w' ->
  jar w' = native_set value (jar w).
Proof.
  destruct (installed w) eqn:Hi.
  - rewrite assign_intercepted by exact Hi. apply setter_Ret_jar.
  - rewrite assign_native by exact Hi. now intros [= <-].
Qed.

Lemma set_Ret_jar name v o w w' :
  Cookies.set name v o w = Ret tt w' ->
  jar w' = native_set (wire_of name v o) (jar w).
Proof. rewrite set_assigns. apply assign_Ret_jar. Qed.

(** *** Installation *)

Lemma startIntercepting_started w : Cookies.startIntercepting w = Ret tt (started w).
Proof.
  unfold Cookies.startIntercepting, started, bind, gets, ret.
  destruct (isIntercepting w); [reflexivity|].
  destruct (cookieEnabled w); [|reflexivity]. simpl.
  destruct (configurable w); [|reflexivity]. simpl.
  now destruct (debug w).
Qed.

Lemma started_again w : isIntercepting w = true -> started w = w.
Proof. unfold started. now intros ->. Qed.

(** *** The registry *)

Lemma registry_put_put name (a b : list CookieSubscriber) w :
  Cookies.registry_put name b (Cookies.registry_put name a w) = Cookies.registry_put name b w.
Proof.
  unfold Cookies.registry_put, with_subscribers. simpl. now rewrite insert_insert_eq.
Qed.

Lemma subscribe_started name f w :
  Cookies.subscribe name f w =
    match Cookies.registry_get name (started w) with
    | SlotInherited => Throw TypeError (started w)
    | _ => Ret (mkUnsubscriber name f)
             (Cookies.registry_put name (callbacks name (started w) ++ [f]) (started w))
    end.
Proof.
  unfold Cookies.subscribe. unfold bind at 1. rewrite startIntercepting_started.
  generalize (started w). clear w. intros w.
  unfold bind, gets, modify, ret, throw, Cookies.when,
    Cookies.registry_has, Cookies.registry_get, callbacks, JS.Array_push.
  destruct (subscribers w !! name) as [a|] eqn:Ha; simpl.
  - now rewrite Ha.
  - destruct (inherited name); simpl.
    + now rewrite Ha.
    + rewrite lookup_insert_eq. now rewrite registry_put_put.
Qed.

Lemma unsubscribe_own name f w a :
  subscribers w !! name = Some a ->
  Cookies.unsubscribe (mkUnsubscriber name f) w
  = Ret tt (Cookies.registry_put name
              (fst (JS.Array_splice a (JS.Array_indexOf a f))) w).
Proof.
  intros Ha. unfold Cookies.unsubscribe, bind, gets, modify, Cookies.registry_get.
  simpl. now rewrite Ha.
Qed.

Lemma unsubscribe_none name f w :
  subscribers w !! name = None ->
  Cookies.unsubscribe (mkUnsubscriber name f) w = Throw TypeError w.
Proof.
  intros Ha. unfold Cookies.unsubscribe, bind, gets, throw, Cookies.registry_get.
  simpl. rewrite Ha. now destruct (inherited name).
Qed.

End broker_facts.

(** ** What a step can change *)

Section frames.
Context {P : Platform}.
Implicit Types (w : World) (name value : string) (f : CookieSubscriber).

Lemma same_setup_refl w : same_setup w w.
Proof. now repeat split. Qed.

Lemma same_setup_trans w1 w2 w3 :
  same_setup w1 w2 -> same_setup w2 w3 -> same_setup w1 w3.
Proof. unfold same_setup. intros (?&?&?&?&?) (?&?&?&?&?). repeat split; congruence. Qed.

Lemma installations_more w evs :
  List.filter is_define evs = [] ->
  installations (with_trace (trace w ++ evs) w) = installations w.
Proof.
  intros H. unfold installations. simpl.
  now rewrite List.filter_app, H, app_nil_r.
Qed.

Lemma notifications_more w evs :
  List.filter is_call evs = [] ->
  notifications (with_trace (trace w ++ evs) w) = notifications w.
Proof.
  intros H. unfold notifications. simpl.
  now rewrite List.filter_app, H, app_nil_r.
Qed.

Lemma calls_are_not_installations (a : list CookieSubscriber) newValue oldValue :
  List.filter is_define (List.map (fun f => EvCall f newValue oldValue) a) = [].
Proof. induction a as [|f a IH]; simpl; [reflexivity | exact IH]. Qed.

Lemma same_setup_written value w : same_setup w (written value w).
Proof.
  repeat split. unfold written.
  now rewrite (installations_more (with_jar _ w) [EvSetCookie value]).
Qed.

Lemma same_setup_logged name oldValue newValue w :
  same_setup w (logged name oldValue newValue w).
Proof.
  unfold logged. destruct (debug w); [|apply same_setup_refl].
  repeat split. now apply installations_more.
Qed.

Lemma same_setup_dispatched name newValue oldValue w :
  same_setup w (dispatched name newValue oldValue w).
Proof.
  repeat split. unfold dispatched.
  apply installations_more, calls_are_not_installations.
Qed.

Lemma same_setup_put name a w : same_setup w (Cookies.registry_put name a w).
Proof. now repeat split. Qed.

Lemma same_setup_debug b w : same_setup w (with_debug b w).
Proof. now repeat split. Qed.

Lemma same_setup_intercepted value oldValue newValue w :
  same_setup w (dispatched (name_of value) newValue oldValue
                  (logged (name_of value) oldValue newValue (written value w)))
  /\ same_setup w (logged (name_of value) oldValue newValue (written value w)).
Proof.
  assert (H : same_setup w (logged (name_of value) oldValue newValue (written value w))).
  { eapply same_setup_trans; [apply same_setup_written | apply same_setup_logged]. }
  split; [|exact H].
  eapply same_setup_trans; [exact H | apply same_setup_dispatched].
Qed.

Lemma setter_setup value w : same_setup w (world_of (Cookies.setter value w)).
Proof.
  destruct (setter_cases value w)
    as [[_ E]|[(_ & e & _ & E)|[(_ & o & e & _ & _ & E)|(_ & o & n & _ & _ & E)]]];
    rewrite E; simpl.
  - apply same_setup_written.
  - apply same_setup_refl.
  - apply same_setup_written.
  - destruct (same_setup_intercepted value o n w) as [H1 H2].
    now destruct (Cookies.registry_get (name_of value) w).
Qed.

Lemma assign_setup value w :
  same_setup w (world_of (Cookies.document_cookie_assign value w)).
Proof.
  destruct (installed w) eqn:Hi.
  - rewrite assign_intercepted by exact Hi. apply setter_setup.
  - rewrite assign_native by exact Hi. apply same_setup_written.
Qed.

Lemma unsubscribe_setup u w : same_setup w (world_of (Cookies.unsubscribe u w)).
Proof.
  destruct u as [name f]. destruct (subscribers w !! name) as [a|] eqn:Ha.
  - rewrite (unsubscribe_own name f w a Ha). apply same_setup_put.
  - rewrite (unsubscribe_none name f w Ha). apply same_setup_refl.
Qed.

Lemma subscribe_setup name f w :
  same_setup (started w) (world_of (Cookies.subscribe name f w)).
Proof.
  rewrite subscribe_started.
  destruct (Cookies.registry_get name (started w)); simpl;
    first [apply same_setup_put | apply same_setup_refl].
Qed.

(** Every step but [subscribe] leaves the installation alone. *)
Lemma step_setup w op :
  (forall name f, op <> OpSubscribe name f) -> same_setup w (step w op).
Proof.
  destruct op as [name f|u|name d|name v o|value|b]; intros Hop; simpl.
  - now destruct (Hop name f).
  - apply unsubscribe_setup.
  - rewrite get_world. apply same_setup_refl.
  - rewrite set_assigns. apply assign_setup.
  - apply assign_setup.
  - apply same_setup_debug.
Qed.

(** *** Consistency *)

Lemma consistent_init j enabled conf : consistent (init j enabled conf).
Proof. now split. Qed.

Lemma consistent_same_setup w w' : same_setup w w' -> consistent w -> consistent w'.
Proof.
  unfold same_setup, consistent. intros (_ & _ & Hi & Hf & Hn) [H1 H2].
  rewrite Hi, Hf, Hn. now split.
Qed.

Lemma consistent_started w : consistent w -> consistent (started w).
Proof.
  intros H. unfold started.
  destruct (isIntercepting w) eqn:Hf; [exact H|].
  destruct H as [H1 H2]. rewrite ?Hf in H1, H2.
  destruct (cookieEnabled w); simpl; [|split; rewrite ?Hf; assumption].
  destruct (configurable w); simpl.
  - split; [reflexivity|]. simpl. unfold installations in *. simpl.
    destruct (debug w); simpl; rewrite !List.filter_app, ?length_app; simpl;
      rewrite ?app_nil_r, ?length_app; simpl; lia.
  - split; simpl; rewrite Hf; [exact H1|].
    now rewrite (installations_more w [EvLog LogBlocked]).
Qed.

Lemma consistent_step w op : consistent w -> consistent (step w op).
Proof.
  intros H. destruct op as [name f|u|name d|name v o|value|b].
  - apply (consistent_same_setup (started w)); [apply subscribe_setup|].
    now apply consistent_started.
  - apply (consistent_same_setup w); [now apply step_setup | exact H].
  - apply (consistent_same_setup w); [now apply step_setup | exact H].
  - apply (consistent_same_setup w); [now apply step_setup | exact H].
  - apply (consistent_same_setup w); [now apply step_setup | exact H].
  - apply (consistent_same_setup w); [now apply step_setup | exact H].
Qed.

Lemma run_app ops more w : run (ops ++ more) w = run more (run ops w).
Proof. unfold run. apply fold_left_app. Qed.

Lemma consistent_run ops w : consistent w -> consistent (run ops w).
Proof.
  revert w. induction ops as [|op ops IH]; intros w H; simpl; [exact H|].
  apply IH. now apply consistent_step.
Qed.

(** *** The flag never goes back *)

Lemma flag_step w op : isIntercepting w = true -> isIntercepting (step w op) = true.
Proof.
  intros H. destruct op as [name f|u|name d|name v o|value|b].
  - destruct (subscribe_setup name f w) as (_ & _ & _ & Hf & _).
    simpl. rewrite Hf. now rewrite started_again.
  - destruct (step_setup w (OpUnsubscribe u)) as (_ & _ & _ & Hf & _); [easy | congruence].
  - destruct (step_setup w (OpGet name d)) as (_ & _ & _ & Hf & _); [easy | congruence].
  - destruct (step_setup w (OpSet name v o)) as (_ & _ & _ & Hf & _); [easy | congruence].
  - destruct (step_setup w (OpAssign value)) as (_ & _ & _ & Hf & _); [easy | congruence].
  - destruct (step_setup w (OpDebug b)) as (_ & _ & _ & Hf & _); [easy | congruence].
Qed.

Lemma flag_run ops w : isIntercepting w = true -> isIntercepting (run ops w) = true.
Proof.
  revert w. induction ops as [|op ops IH]; intros w H; simpl; [exact H|].
  apply IH. now apply flag_step.
Qed.

(** *** The environment does not change *)

Lemma started_environment w :
  cookieEnabled (started w) = cookieEnabled w /\ configurable (started w) = configurable w.
Proof.
  unfold started. destruct (isIntercepting w); [easy|].
  destruct (cookieEnabled w) eqn:He; simpl; [|now rewrite He].
  destruct (configurable w) eqn:Hc; simpl; [|now rewrite He, Hc].
  destruct (debug w); simpl; now rewrite He, Hc.
Qed.

Lemma step_environment w op :
  cookieEnabled (step w op) = cookieEnabled w /\ configurable (step w op) = configurable w.
Proof.
  destruct op as [name f|u|name d|name v o|value|b].
  - destruct (subscribe_setup name f w) as (He & Hc & _).
    destruct (started_environment w) as [He' Hc']. simpl. split; congruence.
  - destruct (step_setup w (OpUnsubscribe u)) as (He & Hc & _); easy.
  - destruct (step_setup w (OpGet name d)) as (He & Hc & _); easy.
  - destruct (step_setup w (OpSet name v o)) as (He & Hc & _); easy.
  - destruct (step_setup w (OpAssign value)) as (He & Hc & _); easy.
  - destruct (step_setup w (OpDebug b)) as (He & Hc & _); easy.
Qed.

Lemma run_environment ops w :
  cookieEnabled (run ops w) = cookieEnabled w /\ configurable (run ops w) = configurable w.
Proof.
  revert w. induction ops as [|op ops IH]; intros w; simpl; [easy|].
  destruct (IH (step w op)) as [H1 H2]. destruct (step_environment w op) as [H3 H4].
  split; congruence.
Qed.

(** The first [subscribe] of a page that allows it installs. *)
Lemma subscribe_installs name f w :
  cookieEnabled w = true -> configurable w = true ->
  isIntercepting (step w (OpSubscribe name f)) = true.
Proof.
  intros He Hc. destruct (subscribe_setup name f w) as (_ & _ & _ & Hf & _).
  simpl. rewrite Hf. unfold started.
  destruct (isIntercepting w) eqn:E; [exact E|]. now rewrite He, Hc.
Qed.

Lemma run_installs ops w :
  cookieEnabled w = true -> configurable w = true ->
  (exists name f, In (OpSubscribe name f) ops) ->
  isIntercepting (run ops w) = true.
Proof.
  revert w. induction ops as [|op ops IH]; intros w He Hc (name & f & Hin).
  - destruct Hin.
  - simpl. destruct Hin as [->|Hin].
    + apply flag_run. now apply subscribe_installs.
    + destruct (step_environment w op) as [He' Hc'].
      apply IH; [congruence | congruence | eauto].
Qed.

End frames.

(** ** Pages that cannot intercept *)

Section degraded_pages.
Context {P : Platform}.
Implicit Types (w : World) (name value : string) (f : CookieSubscriber).

Lemma degraded_init j enabled conf :
  enabled = false \/ conf = false -> degraded (init j enabled conf).
Proof. intros [-> | ->]; repeat split. simpl. now destruct enabled. Qed.

Lemma degraded_more w evs :
  List.filter is_define evs = [] -> List.filter is_call evs = [] ->
  degraded w -> degraded (with_trace (trace w ++ evs) w).
Proof.
  intros Hd Hc (He & Hf & Hi & Hn & Hcalls). repeat split; try assumption.
  - now rewrite installations_more.
  - now rewrite notifications_more.
Qed.

Lemma started_degraded w :
  degraded w ->
  started w = if cookieEnabled w then with_trace (trace w ++ [EvLog LogBlocked]) w else w.
Proof.
  intros (He & Hf & _). unfold started. rewrite Hf.
  destruct (cookieEnabled w); simpl in *; [|reflexivity]. now rewrite He.
Qed.

Lemma degraded_started w : degraded w -> degraded (started w).
Proof.
  intros H. rewrite (started_degraded w H).
  destruct (cookieEnabled w); [|exact H]. now apply degraded_more.
Qed.

Lemma degraded_written value w : degraded w -> degraded (written value w).
Proof.
  intros (He & Hf & Hi & Hn & Hcalls). unfold written.
  apply (degraded_more (with_jar (native_set value (jar w)) w) [EvSetCookie value]);
    [reflexivity | reflexivity |]. now repeat split.
Qed.

Lemma degraded_put name a w : degraded w -> degraded (Cookies.registry_put name a w).
Proof. intros (He & Hf & Hi & Hn & Hcalls). now repeat split. Qed.

Lemma degraded_assign value w :
  degraded w -> degraded (world_of (Cookies.document_cookie_assign value w)).
Proof.
  intros H. destruct H as (He & Hf & Hi & Hn & Hcalls).
  rewrite assign_native by exact Hi. apply degraded_written. now repeat split.
Qed.

Lemma degraded_step w op : degraded w -> degraded (step w op).
Proof.
  intros H. destruct op as [name f|[name f]|name d|name v o|value|b]; simpl.
  - rewrite subscribe_started.
    destruct (Cookies.registry_get name (started w)); simpl;
      try apply degraded_put; now apply degraded_started.
  - destruct (subscribers w !! name) as [a|] eqn:Ha.
    + rewrite (unsubscribe_own name f w a Ha). now apply degraded_put.
    + now rewrite (unsubscribe_none name f w Ha).
  - now rewrite get_world.
  - rewrite set_assigns. now apply degraded_assign.
  - now apply degraded_assign.
  - destruct H as (He & Hf & Hi & Hn & Hcalls). now repeat split.
Qed.

Lemma degraded_run ops w : degraded w -> degraded (run ops w).
Proof.
  revert w. induction ops as [|op ops IH]; intros w H; simpl; [exact H|].
  apply IH. now apply degraded_step.
Qed.

End degraded_pages.

(** ** Unsubscribing *)

Section unsubscribing.
Context {P : Platform}.
Implicit Types (w : World) (name value : string) (f : CookieSubscriber).

(** With [f] in the entry, the closure removes [f] and every callback
    subscribed after it. *)
Lemma unsubscribe_present name f w (pre post : list CookieSubscriber) :
  f ∉ pre -> subscribers w !! name = Some (pre ++ f :: post)%list ->
  Cookies.unsubscribe (mkUnsubscriber name f) w
  = Ret tt (Cookies.registry_put name pre w).
Proof.
  intros Hf Ha. rewrite (unsubscribe_own name f w _ Ha).
  now rewrite splice_indexOf_present.
Qed.

(** With [f] not in the entry, the closure removes the last callback. *)
Lemma unsubscribe_absent name f w (a : list CookieSubscriber) :
  f ∉ a -> subscribers w !! name = Some a ->
  Cookies.unsubscribe (mkUnsubscriber name f) w
  = Ret tt (Cookies.registry_put name (take (List.length a - 1) a) w).
Proof.
  intros Hf Ha. rewrite (unsubscribe_own name f w _ Ha).
  now rewrite splice_indexOf_absent.
Qed.

(** The case that works: [f] is the last callback of the entry. *)
Lemma unsubscribe_last name f w (pre : list CookieSubscriber) :
  f ∉ pre -> subscribers w !! name = Some (pre ++ [f])%list ->
  Cookies.unsubscribe (mkUnsubscriber name f) w
  = Ret tt (Cookies.registry_put name pre w).
Proof. apply unsubscribe_present. Qed.

(** An entry of the registry, once created, stays. *)
Lemma entry_put name name' a w :
  is_Some (subscribers w !! name) ->
  is_Some (subscribers (Cookies.registry_put name' a w) !! name).
Proof.
  intros H. unfold Cookies.registry_put. simpl.
  destruct (decide (name' = name)) as [->|Hne].
  - rewrite lookup_insert_eq. eauto.
  - now rewrite lookup_insert_ne.
Qed.

Lemma subscribers_started w : subscribers (started w) = subscribers w.
Proof.
  unfold started. destruct (isIntercepting w); [reflexivity|].
  destruct (cookieEnabled w); simpl; [|reflexivity].
  destruct (configurable w); simpl; [|reflexivity].
  now destruct (debug w).
Qed.

Lemma subscribers_setter value w :
  subscribers (world_of (Cookies.setter value w)) = subscribers w.
Proof.
  destruct (setter_cases value w)
    as [[_ E]|[(_ & e & _ & E)|[(_ & o & e & _ & _ & E)|(_ & o & n & _ & _ & E)]]];
    rewrite E; try reflexivity.
  unfold dispatched, logged.
  destruct (Cookies.registry_get (name_of value) w); simpl;
    now destruct (debug w).
Qed.

Lemma subscribers_assign value w :
  subscribers (world_of (Cookies.document_cookie_assign value w)) = subscribers w.
Proof.
  destruct (installed w) eqn:Hi.
  - rewrite assign_intercepted by exact Hi. apply subscribers_setter.
  - now rewrite assign_native by exact Hi.
Qed.

Lemma entry_step name w op :
  is_Some (subscribers w !! name) -> is_Some (subscribers (step w op) !! name).
Proof.
  intros H. destruct op as [name' f|[name' f]|name' d|name' v o|value|b]; simpl.
  - rewrite subscribe_started.
    destruct (Cookies.registry_get name' (started w)); simpl;
      try apply entry_put; now rewrite subscribers_started.
  - destruct (subscribers w !! name') as [a|] eqn:Ha.
    + rewrite (unsubscribe_own name' f w a Ha). now apply entry_put.
    + now rewrite (unsubscribe_none name' f w Ha).
  - now rewrite get_world.
  - rewrite set_assigns. now rewrite subscribers_assign.
  - now rewrite subscribers_assign.
  - exact H.
Qed.

Lemma entry_run name ops w :
  is_Some (subscribers w !! name) -> is_Some (subscribers (run ops w) !! name).
Proof.
  revert w. induction ops as [|op ops IH]; intros w H; simpl; [exact H|].
  apply IH. now apply entry_step.
Qed.

(** The closure a [subscribe] returned never raises, whatever the page
    did meanwhile. *)
Lemma unsubscribe_returns name f w u w1 ops :
  Cookies.subscribe name f w = Ret u w1 ->
  u = mkUnsubscriber name f /\ returns (Cookies.unsubscribe u (run ops w1)).
Proof.
  rewrite subscribe_started.
  destruct (Cookies.registry_get name (started w)) eqn:Hs; try discriminate;
    intros [= <- <-]; (split; [reflexivity|]).
  all: assert (He : is_Some (subscribers
           (run ops (Cookies.registry_put name (callbacks name (started w) ++ [f])
                       (started w))) !! name))
      by (apply entry_run; unfold Cookies.registry_put; simpl;
          rewrite lookup_insert_eq; eauto).
  all: destruct He as [b Hb]; now rewrite (unsubscribe_own name f _ b Hb).
Qed.

End unsubscribing.

(** C1 (the code departs from it).  The closure returned by
    [subscribe(name, f)] should remove exactly the callback [f].  Here [1]
    and then [2] subscribe to "theme": the closure of [1] empties the
    entry, [2] included.  And with [2] subscribed before [1], the closure
    of [1] called a second time finds no [1] and removes [2]. *)
Theorem unsubscribe_removes_other_subscribers {P : Platform} (j : Jar) :
  value_of ((u <- Cookies.subscribe "theme" 1%nat ;;
             Cookies.subscribe "theme" 2%nat ;;
             before <- gets (callbacks "theme") ;;
             Cookies.unsubscribe u ;;
             after <- gets (callbacks "theme") ;;
             ret (before, after))%js (init j true true))
  = Some ([1%nat; 2%nat], [])
  /\ value_of ((Cookies.subscribe "theme" 2%nat ;;
                u <- Cookies.subscribe "theme" 1%nat ;;
                Cookies.unsubscribe u ;;
                once <- gets (callbacks "theme") ;;
                Cookies.unsubscribe u ;;
                twice <- gets (callbacks "theme") ;;
                ret (once, twice))%js (init j true true))
     = Some ([2%nat], []).
Proof. split; vm_compute; reflexivity. Qed.

(** ** Intercepted writes *)

Lemma index_cons a s :
  String.index 0 "=" (String a s)
  = if Ascii.eqb a "=" then Some 0%nat
    else match String.index 0 "=" s with Some n => Some (S n) | None => None end.
Proof.
  cbn [String.index String.prefix]. destruct (ascii_dec "=" a) as [<-|Hne].
  - now destruct s.
  - rewrite (proj2 (Ascii.eqb_neq a "=")) by congruence. reflexivity.
Qed.

Lemma index_splits s i :
  String.index 0 "=" s = Some i ->
  (i < String.length s)%nat
  /\ (exists rest, s = String.substring 0 i s +:+ "=" +:+ rest)
  /\ String.index 0 "=" (String.substring 0 i s) = None.
Proof.
  revert i. induction s as [|a s IH]; intros i; [discriminate|].
  rewrite index_cons. destruct (Ascii.eqb a "=") eqn:Ea.
  - intros [= <-]. apply Ascii.eqb_eq in Ea. subst a.
    cbn [String.substring String.length String.append].
    split; [lia|]. split; [now exists s | reflexivity].
  - destruct (String.index 0 "=" s) as [n|]; [|discriminate].
    intros [= <-]. destruct (IH n eq_refl) as (Hlt & (rest & Hs) & Hn).
    cbn [String.substring String.length String.append].
    split; [lia|]. split.
    + exists rest.
      change (String a s = String a (String.substring 0 n s +:+ "=" +:+ rest)).
      now f_equal.
    + rewrite index_cons, Ea. now rewrite Hn.
Qed.

(** The name the interceptor extracts is the text before the first "=". *)
Lemma name_of_splits value :
  JS.includes value "=" = true ->
  exists rest, value = name_of value +:+ "=" +:+ rest
               /\ JS.includes (name_of value) "=" = false.
Proof.
  intros Hin. destruct (index_includes _ _ Hin) as [i Hi].
  destruct (index_splits value i Hi) as (Hlt & (rest & Hs) & Hn).
  assert (E : name_of value = String.substring 0 i value).
  { unfold name_of, JS.indexOf, JS.substring, JS.clamp. rewrite Hi.
    replace (Z.to_nat (Z.min (Z.max 0 0) (Z.of_nat (String.length value)))) with 0%nat by lia.
    replace (Z.to_nat (Z.min (Z.max (Z.of_nat i) 0) (Z.of_nat (String.length value))))
      with i by lia.
    now rewrite Nat.min_0_l, Nat.max_0_l, Nat.sub_0_r. }
  exists rest. rewrite E. split; [exact Hs|].
  unfold JS.includes. now rewrite Hn.
Qed.

Section intercepted_writes.
Context {P : Platform}.
Implicit Types (w : World) (name value : string) (f : CookieSubscriber).

Lemma since_more w w' evs : trace w' = (trace w ++ evs)%list -> since w w' = evs.
Proof. intros H. unfold since. rewrite H. apply drop_app_length. Qed.

Lemma trace_intercepted value oldValue newValue w :
  trace (dispatched (name_of value) newValue oldValue
           (logged (name_of value) oldValue newValue (written value w)))
  = (trace w ++ EvSetCookie value
      :: (if debug w
          then [EvLog (LogWrite (name_of value) (JSON_stringify oldValue)
                                (JSON_stringify newValue))]
          else [])
      ++ List.map (fun f => EvCall f newValue oldValue) (callbacks (name_of value) w))%list.
Proof.
  unfold dispatched, logged, written, callbacks. simpl.
  destruct (debug w); simpl; rewrite <- ?app_assoc; reflexivity.
Qed.

Lemma trace_logged value oldValue newValue w :
  trace (logged (name_of value) oldValue newValue (written value w))
  = (trace w ++ EvSetCookie value
      :: (if debug w
          then [EvLog (LogWrite (name_of value) (JSON_stringify oldValue)
                                (JSON_stringify newValue))]
          else []))%list.
Proof.
  unfold logged, written. simpl.
  destruct (debug w); simpl; rewrite <- ?app_assoc; reflexivity.
Qed.

(** Whatever its outcome, an intercepted write whose two reads succeed
    leaves the page written, logged and notified. *)
Lemma setter_world value w oldValue newValue :
  JS.includes value "=" = true ->
  Cookies.get (name_of value) VNull w = Ret oldValue w ->
  Cookies.get (name_of value) VNull (written value w) = Ret newValue (written value w) ->
  world_of (Cookies.setter value w)
  = dispatched (name_of value) newValue oldValue
      (logged (name_of value) oldValue newValue (written value w)).
Proof.
  intros Hin Hold Hnew. rewrite (setter_intercepts value w oldValue newValue Hin Hold Hnew).
  unfold Cookies.registry_get.
  destruct (subscribers w !! name_of value) as [a|] eqn:Ha; [reflexivity|].
  destruct (inherited (name_of value)); [|reflexivity]. simpl.
  symmetry. apply dispatched_nobody.
  assert (Hcb : callbacks (name_of value)
                  (logged (name_of value) oldValue newValue (written value w))
                = callbacks (name_of value) w).
  { unfold logged. now destruct (debug (written value w)). }
  rewrite Hcb. unfold callbacks. now rewrite Ha.
Qed.

Lemma setter_returns value w oldValue newValue :
  JS.includes value "=" = true ->
  Cookies.get (name_of value) VNull w = Ret oldValue w ->
  Cookies.get (name_of value) VNull (written value w) = Ret newValue (written value w) ->
  Cookies.registry_get (name_of value) w <> SlotInherited ->
  returns (Cookies.setter value w).
Proof.
  intros Hin Hold Hnew Hs. rewrite (setter_intercepts value w oldValue newValue Hin Hold Hnew).
  now destruct (Cookies.registry_get (name_of value) w).
Qed.

End intercepted_writes.

(** C2, as amended.  A written string without "=" goes to the original
    setter and nobody is called.  Otherwise the name is the text before
    the first "="; when the reads of the old value (before the write) and
    of the new value (after it) by [get] with a [null] default raise no
    error, the original setter has run on the unaltered string and then
    every callback registered for the name has been called, in
    subscription order, with [(newValue, oldValue)], whether the two
    differ or not. *)
Theorem setter_notifies_subscribers {P : Platform} (value : string) (w : World) :
  (JS.includes value "=" = false ->
     Cookies.setter value w = Ret tt (written value w)
     /\ since w (written value w) = [EvSetCookie value])
  /\ (JS.includes value "=" = true ->
      (exists rest, value = name_of value +:+ "=" +:+ rest
                    /\ JS.includes (name_of value) "=" = false)
      /\ forall oldValue newValue,
          Cookies.get (name_of value) VNull w = Ret oldValue w ->
          Cookies.get (name_of value) VNull (written value w)
            = Ret newValue (written value w) ->
          let w' := world_of (Cookies.setter value w) in
          jar w' = native_set value (jar w)
          /\ since w w'
             = (EvSetCookie value
                 :: (if debug w
                     then [EvLog (LogWrite (name_of value) (JSON_stringify oldValue)
                                           (JSON_stringify newValue))]
                     else [])
                 ++ List.map (fun f => EvCall f newValue oldValue)
                             (callbacks (name_of value) w))%list
          /\ (Cookies.registry_get (name_of value) w <> SlotInherited ->
              returns (Cookies.setter value w))).
Proof.
  split.
  - intros Hin. split; [now apply setter_passes|].
    now apply since_more.
  - intros Hin. split; [now apply name_of_splits|].
    intros oldValue newValue Hold Hnew w'. subst w'.
    rewrite (setter_world value w oldValue newValue Hin Hold Hnew).
    split; [|split].
    + unfold dispatched, logged. now destruct (debug (written value w)).
    + apply since_more. apply trace_intercepted.
    + now apply setter_returns with oldValue newValue.
Qed.

(** ** Round trips through [set] and [get] *)

Section round_trip_facts.
Context {P : Platform}.
Implicit Types (w : World) (name : string).

(** A stored value that starts with "json:" is read by parsing the rest. *)
Lemma get_prefixed name d w text :
  codec_get name (jar w) = Some ("json:" +:+ text) ->
  Cookies.get name d w
  = match JSON_parse text with
    | Some v => Ret v w
    | None => Throw SyntaxError w
    end.
Proof.
  intros Hc. destruct (JSON_parse text) as [v|] eqn:Hp.
  - apply get_structured with ("json:" +:+ text);
      [exact Hc | apply startsWith_json | now rewrite slice_json].
  - apply get_corrupt with ("json:" +:+ text);
      [exact Hc | apply startsWith_json | now rewrite slice_json].
Qed.

Lemma wire_of_structured name s o :
  s <> VUndefined -> is_string s = false ->
  wire_of name s o = wire_set name ("json:" +:+ JSON_stringify s) o.
Proof. intros Hu Hs. destruct s; try reflexivity; [now destruct Hu | discriminate]. Qed.

(** Without the interceptor, [set] is the codec's write and returns. *)
Lemma set_native name v o w :
  installed w = false ->
  Cookies.set name v o w = Ret tt (written (wire_of name v o) w).
Proof. intros Hi. rewrite set_assigns. now apply assign_native. Qed.

Lemma set_native_returns name v o w :
  installed w = false -> returns (Cookies.set name v o w).
Proof. intros Hi. now rewrite set_native. Qed.

Lemma assign_returns_iff value w :
  returns (Cookies.document_cookie_assign value w) <-> accepted value w.
Proof.
  unfold accepted. split.
  - destruct (installed w) eqn:Hi; [|now left].
    rewrite assign_intercepted by exact Hi. intros Hr. right.
    destruct (setter_cases value w)
      as [[Hin E]|[(_ & e & _ & E)|[(_ & o & e & _ & _ & E)|(Hin & o & n & Ho & Hn & E)]]];
      rewrite E in Hr; simpl in Hr; try easy.
    + now left.
    + right. exists o, n. split; [exact Ho|]. split; [exact Hn|].
      intros Hs. now rewrite Hs in Hr.
  - intros [Hi|H].
    + now rewrite assign_native.
    + destruct (installed w) eqn:Hi; [|now rewrite assign_native].
      rewrite assign_intercepted by exact Hi.
      destruct H as [Hin|(o & n & Ho & Hn & Hs)].
      * now rewrite setter_passes.
      * destruct (JS.includes value "=") eqn:Hin; [|now rewrite setter_passes].
        now apply setter_returns with o n.
Qed.

Lemma set_returns_iff name v o w :
  returns (Cookies.set name v o w) <-> accepted (wire_of name v o) w.
Proof. rewrite set_assigns. apply assign_returns_iff. Qed.

End round_trip_facts.

(** C3, as amended.  For every string [v] that does not start with
    "json:", [set(name, v)] writes [v] as it is and, when the codec reads
    back under [name] what it wrote, a subsequent [get(name, default)]
    returns [v], whatever the default. *)
Theorem set_get_string {P : Platform} (name v : string) (o : CookieOptions)
    (d : Value) (w : World) :
  JS.startsWith v "json:" = false ->
  codec_get name (native_set (wire_set name v o) (jar w)) = Some v ->
  (forall w', Cookies.set name (VStr v) o w = Ret tt w' ->
              jar w' = native_set (wire_set name v o) (jar w))
  /\ round_trips name (VStr v) o d w
  /\ (returns (Cookies.set name (VStr v) o w) <-> accepted (wire_set name v o) w).
Proof.
  intros Hp Hc.
  assert (Hj : forall w', Cookies.set name (VStr v) o w = Ret tt w' ->
                          jar w' = native_set (wire_set name v o) (jar w)).
  { intros w' Hset. now apply set_Ret_jar in Hset. }
  split; [exact Hj|]. split.
  - intros w' Hset. apply get_plain; [|exact Hp]. now rewrite (Hj w' Hset).
  - apply (set_returns_iff name (VStr v)).
Qed.

(** C6.  For every value [s] other than [undefined] and the strings,
    [set(name, s)] hands the codec the string "json:" followed by
    [JSON.stringify s]; when the codec reads back under [name] what it
    wrote, a subsequent [get(name, default)] is [JSON.parse] of that text,
    whatever the default.  So for every such [s] that survives
    [JSON.parse (JSON.stringify s)], that is for every JSON-serializable
    [s], [get] returns [s]. *)
Theorem set_get_structured {P : Platform} (name : string) (s : Value)
    (o : CookieOptions) (d : Value) (w : World) :
  s <> VUndefined -> is_string s = false ->
  codec_get name (native_set (wire_set name ("json:" +:+ JSON_stringify s) o) (jar w))
    = Some ("json:" +:+ JSON_stringify s) ->
  Cookies.set name s o = Cookies.JSCookies_set name ("json:" +:+ JSON_stringify s) o
  /\ (forall w', Cookies.set name s o w = Ret tt w' ->
        jar w' = native_set (wire_set name ("json:" +:+ JSON_stringify s) o) (jar w)
        /\ Cookies.get name d w'
           = match JSON_parse (JSON_stringify s) with
             | Some v => Ret v w'
             | None => Throw SyntaxError w'
             end)
  /\ (JSON_parse (JSON_stringify s) = Some s -> round_trips name s o d w)
  /\ (returns (Cookies.set name s o w)
      <-> accepted (wire_set name ("json:" +:+ JSON_stringify s) o) w).
Proof.
  intros Hu Hs Hc.
  assert (Hj : forall w', Cookies.set name s o w = Ret tt w' ->
             jar w' = native_set (wire_set name ("json:" +:+ JSON_stringify s) o) (jar w)).
  { intros w' Hset. apply set_Ret_jar in Hset.
    now rewrite wire_of_structured in Hset. }
  assert (Hg : forall w', Cookies.set name s o w = Ret tt w' ->
             Cookies.get name d w'
             = match JSON_parse (JSON_stringify s) with
               | Some v => Ret v w'
               | None => Throw SyntaxError w'
               end).
  { intros w' Hset. apply get_prefixed. now rewrite (Hj w' Hset). }
  split; [|split; [|split]].
  - destruct s; try reflexivity; [now destruct Hu | discriminate].
  - intros w' Hset. split; [now apply Hj | now apply Hg].
  - intros Hrt w' Hset. rewrite (Hg w' Hset). now rewrite Hrt.
  - rewrite <- (wire_of_structured name s o Hu Hs). apply set_returns_iff.
Qed.

(** ** Installation *)

(** C4.  Along every run of a page the interceptor is installed at most
    once: the flag is set when, and only when, the one installation has
    taken place, it is never reset, and it is set by the first [subscribe]
    of a page that allows interception.  Once it is set, [subscribe] only
    appends the callback to the registry entry of the name: it installs
    nothing and leaves every other part of the page as it was. *)
Theorem interceptor_installed_once {P : Platform} (ops : list Op) (j : Jar)
    (enabled conf : bool) :
  let w := run ops (init j enabled conf) in
  (installations w <= 1)%nat
  /\ (isIntercepting w = true <-> installations w = 1%nat)
  /\ installed w = isIntercepting w
  /\ (enabled = true -> conf = true ->
      (exists name f, In (OpSubscribe name f) ops) -> installations w = 1%nat)
  /\ (isIntercepting w = true ->
      (forall more, isIntercepting (run more w) = true
                    /\ installations (run more w) = 1%nat)
      /\ (forall name f,
            Cookies.startIntercepting w = Ret tt w
            /\ Cookies.subscribe name f w =
               match Cookies.registry_get name w with
               | SlotInherited => Throw TypeError w
               | _ => Ret (mkUnsubscriber name f)
                        (Cookies.registry_put name (callbacks name w ++ [f]) w)
               end)).
Proof.
  intros w.
  assert (Hc : consistent w) by (apply consistent_run, consistent_init).
  destruct Hc as [Hi Hn].
  split; [rewrite Hn; destruct (isIntercepting w); lia|].
  split; [rewrite Hn; destruct (isIntercepting w); split; congruence|].
  split; [exact Hi|]. split.
  - intros -> -> Hsub. rewrite Hn.
    unfold w. now rewrite (run_installs ops (init j true true) eq_refl eq_refl Hsub).
  - intros Hf. split.
    + intros more.
      assert (Hf' : isIntercepting (run more w) = true) by now apply flag_run.
      split; [exact Hf'|].
      assert (Hc' : consistent (run more w)).
      { unfold w. rewrite <- run_app. apply consistent_run, consistent_init. }
      destruct Hc' as [_ Hn']. now rewrite Hn', Hf'.
    + intros name f. split.
      * rewrite startIntercepting_started. now rewrite started_again.
      * rewrite subscribe_started. now rewrite started_again.
Qed.

(** C5.  On a page where cookies are disabled, or where the descriptor of
    the cookie accessor is not configurable, every run leaves the flag
    unset and the accessor in place, installs nothing and calls no
    subscriber; [#startIntercepting] returns without raising; [set]
    returns and is the codec's write through the original setter, and
    [get] after it reads the codec, so a string that does not start with
    "json:" comes back. *)
Theorem degraded_mode_never_notifies {P : Platform} (ops : list Op) (j : Jar)
    (enabled conf : bool) :
  enabled = false \/ conf = false ->
  let w := run ops (init j enabled conf) in
  isIntercepting w = false /\ installed w = false
  /\ installations w = 0%nat /\ notifications w = []
  /\ returns (Cookies.startIntercepting w)
  /\ isIntercepting (world_of (Cookies.startIntercepting w)) = false
  /\ (forall name v o,
        Cookies.set name v o w = Ret tt (written (wire_of name v o) w))
  /\ (forall name v o d,
        JS.startsWith v "json:" = false ->
        codec_get name (native_set (wire_set name v o) (jar w)) = Some v ->
        exists w', Cookies.set name (VStr v) o w = Ret tt w'
                   /\ Cookies.get name d w' = Ret (VStr v) w').
Proof.
  intros Henv w.
  assert (Hd : degraded w) by (apply degraded_run, degraded_init, Henv).
  pose proof (degraded_started w Hd) as Hs.
  destruct Hd as (He & Hf & Hi & Hn & Hc).
  split; [exact Hf|]. split; [exact Hi|]. split; [exact Hn|]. split; [exact Hc|].
  split; [now rewrite startIntercepting_started|].
  split; [rewrite startIntercepting_started; now destruct Hs as (_ & Hs & _)|].
  split; [intros name v o; now apply set_native|].
  intros name v o d Hp Hcodec.
  exists (written (wire_set name v o) w). split; [now apply (set_native name (VStr v))|].
  now apply get_plain.
Qed.


(** ** Absent, deleted and corrupt cookies *)


(** C8.  When the value stored under [name] is "json:" followed by a text
    that [JSON.parse] rejects, [get(name, default)] raises the parser's
    [SyntaxError]: it neither catches it nor returns the default. *)
Theorem get_propagates_parse_failure {P : Platform} (name rest : string)
    (d : Value) (w : World) :
  codec_get name (jar w) = Some ("json:" +:+ rest) ->
  JSON_parse rest = None ->
  Cookies.get name d w = Throw SyntaxError w.
Proof.
  intros Hc Hp. apply get_corrupt with ("json:" +:+ rest).
  - exact Hc.
  - apply startsWith_json.
  - now rewrite slice_json.
Qed.

(** C9.  In an intercepted write to a name under which no cookie is
    stored, the old value read is [null], and every subscriber that is
    called receives [null] as [oldValue]; when the new value can be read,
    the calls are exactly one per registered callback, with
    [(newValue, null)].  A cookie stored as "json:null" gives the same
    old value, so the two cannot be told apart. *)
Theorem absent_cookie_reported_as_null {P : Platform} (value : string) (w : World) :
  JS.includes value "=" = true ->
  codec_get (name_of value) (jar w) = None
  \/ (codec_get (name_of value) (jar w) = Some "json:null"
      /\ JSON_parse "null" = Some VNull) ->
  Cookies.get (name_of value) VNull w = Ret VNull w
  /\ (forall f newValue oldValue,
        In (EvCall f newValue oldValue) (since w (world_of (Cookies.setter value w))) ->
        oldValue = VNull)
  /\ (forall newValue,
        Cookies.get (name_of value) VNull (written value w)
          = Ret newValue (written value w) ->
        List.filter is_call (since w (world_of (Cookies.setter value w)))
        = List.map (fun f => EvCall f newValue VNull) (callbacks (name_of value) w)).
Proof.
  intros Hin Hstored.
  assert (Hold : Cookies.get (name_of value) VNull w = Ret VNull w).
  { destruct Hstored as [Habs | [Hnull Hparse]].
    - now apply get_absent.
    - apply get_structured with "json:null"; [exact Hnull | reflexivity | exact Hparse]. }
  split; [exact Hold|]. split.
  - intros f newValue oldValue.
    destruct (setter_cases value w)
      as [[E _]|[(_ & e & E & _)|[(_ & o & e & _ & _ & E)|(_ & o & n & Ho & Hn & _)]]].
    + congruence.
    + congruence.
    + rewrite E. simpl. rewrite (since_more w (written value w) [EvSetCookie value]) by reflexivity.
      intros [H|[]]. discriminate.
    + rewrite (setter_world value w o n Hin Ho Hn).
      rewrite (since_more _ _ _ (trace_intercepted value o n w)).
      assert (o = VNull) by congruence. subst o.
      intros [H|H]; [discriminate|].
      apply in_app_or in H. destruct H as [H|H].
      * destruct (debug w); [destruct H as [H|[]]; discriminate | destruct H].
      * apply in_map_iff in H. destruct H as (g & Hg & _). congruence.
  - intros newValue Hnew.
    rewrite (setter_world value w VNull newValue Hin Hold Hnew).
    rewrite (since_more _ _ _ (trace_intercepted value VNull newValue w)).
    simpl. rewrite List.filter_app.
    replace (List.filter is_call
               (if debug w
                then [EvLog (LogWrite (name_of value) (JSON_stringify VNull)
                                      (JSON_stringify newValue))]
                else [])) with (@nil Event) by now destruct (debug w).
    simpl. induction (callbacks (name_of value) w) as [|g a IH]; simpl; [reflexivity|].
    now rewrite IH.
Qed.

(** C10.  [set(name, null, options)] is a write, not a deletion: [null]
    is stored as "json:null" (the JSON text of [null] being "null") and,
    when the codec reads that back under [name], a subsequent
    [get(name, default)] returns [null], not the default.  Every value
    but [undefined] is written with the codec's [set]. *)
Theorem set_null_is_stored {P : Platform} (name : string) (o : CookieOptions)
    (d : Value) (w : World) :
  JSON_stringify VNull = "null" ->
  JSON_parse "null" = Some VNull ->
  codec_get name (native_set (wire_set name "json:null" o) (jar w)) = Some "json:null" ->
  Cookies.set name VNull o = Cookies.JSCookies_set name "json:null" o
  /\ (forall w', Cookies.set name VNull o w = Ret tt w' ->
                 jar w' = native_set (wire_set name "json:null" o) (jar w)
                 /\ Cookies.get name d w' = Ret VNull w')
  /\ (returns (Cookies.set name VNull o w)
      <-> accepted (wire_set name "json:null" o) w)
  /\ (forall v, v <> VUndefined ->
                exists raw, Cookies.set name v o = Cookies.JSCookies_set name raw o).
Proof.
  intros Hs Hp Hc.
  assert (Hset : Cookies.set name VNull o = Cookies.JSCookies_set name "json:null" o).
  { unfold Cookies.set. now rewrite Hs. }
  split; [exact Hset|]. split; [|split].
  - intros w' Hw'. rewrite Hset in Hw'. apply assign_Ret_jar in Hw'.
    split; [exact Hw'|].
    apply get_structured with "json:null"; [now rewrite Hw' | reflexivity | exact Hp].
  - rewrite Hset. apply assign_returns_iff.
  - intros v Hv. destruct v; try (eexists; reflexivity). now destruct Hv.
Qed.

(** * Runs on the reference platform *)

Section reference_runs.
Local Existing Instance Ref.platform.

Lemma setter_notifies_subscribers_witness :
  let w := run [OpSubscribe "theme" 1%nat; OpSubscribe "theme" 2%nat] (Ref.page true true) in
  since w (world_of (Cookies.setter "theme=dark" w))
  = [ EvSetCookie "theme=dark";
      EvLog (LogWrite "theme" "null" (Ref.stringify (VStr "dark")));
      EvCall 1%nat (VStr "dark") VNull;
      EvCall 2%nat (VStr "dark") VNull ].
Proof.
  intros w.
  destruct (setter_notifies_subscribers (P := Ref.platform) "theme=dark" w) as [_ H].
  assert (Hin : JS.includes "theme=dark" "=" = true) by reflexivity.
  destruct (H Hin) as [_ H2].
  assert (Hold : Cookies.get (name_of "theme=dark") VNull w = Ret VNull w)
    by (apply get_absent; vm_compute; reflexivity).
  assert (Hnew : Cookies.get (name_of "theme=dark") VNull (written "theme=dark" w)
                 = Ret (VStr "dark") (written "theme=dark" w))
    by (apply get_plain; vm_compute; reflexivity).
  destruct (H2 VNull (VStr "dark") Hold Hnew) as (_ & Hs & _).
  rewrite Hs. vm_compute. reflexivity.
Defined.

(** C2, as stated, fails: with a cookie whose stored value is "json:{"
    the old value cannot be read, so the write to that cookie is not
    performed and its subscriber is not called. *)
Lemma setter_skips_write_after_corrupt_cookie :
  let w := run [OpSet "a" (VStr "json:{") no_options; OpSubscribe "a" 1%nat]
               (Ref.page true true) in
  JS.includes "a=1" "=" = true
  /\ installed w = true
  /\ codec_get "a" (jar w) = Some "json:{"
  /\ callbacks "a" w = [1%nat]
  /\ Cookies.setter "a=1" w = Throw SyntaxError w
  /\ ~ intercepted_write "a=1" w.
Proof.
  intros w.
  assert (Hold : Cookies.get (name_of "a=1") VNull w = Throw SyntaxError w)
    by (apply get_corrupt with "json:{"; vm_compute; reflexivity).
  split; [reflexivity|]. split; [vm_compute; reflexivity|].
  split; [vm_compute; reflexivity|]. split; [vm_compute; reflexivity|].
  split; [apply setter_old_unreadable; [reflexivity | exact Hold]|].
  intros (oldValue & newValue & Hold' & _). rewrite Hold in Hold'. discriminate.
Qed.

Lemma set_get_string_witness :
  let w := Ref.page true true in
  exists w', Cookies.set "age" (VStr "21") no_options w = Ret tt w'
             /\ Cookies.get "age" (VNum 0) w' = Ret (VStr "21") w'.
Proof.
  intros w.
  assert (Hp : JS.startsWith "21" "json:" = false) by reflexivity.
  assert (Hc : codec_get "age" (native_set (wire_set "age" "21" no_options) (jar w))
               = Some "21") by (vm_compute; reflexivity).
  destruct (set_get_string (P := Ref.platform) "age" "21" no_options (VNum 0) w Hp Hc)
    as (_ & Hrt & _).
  exists (written (wire_of "age" (VStr "21") no_options) w).
  assert (Hset : Cookies.set "age" (VStr "21") no_options w
                 = Ret tt (written (wire_of "age" (VStr "21") no_options) w))
    by (apply set_native; reflexivity).
  split; [exact Hset | exact (Hrt _ Hset)].
Defined.

(** C3, as stated, fails for a string that starts with "json:": the
    string "json:1" is stored as it is and read back as the number 1. *)
Lemma set_get_string_json_prefix_counterexample :
  let w := Ref.page true true in
  let w' := written (wire_of "a" (VStr "json:1") no_options) w in
  Cookies.set "a" (VStr "json:1") no_options w = Ret tt w'
  /\ codec_get "a" (jar w') = Some "json:1"
  /\ Cookies.get "a" (VNum 0) w' = Ret (VNum 1) w'
  /\ ~ round_trips "a" (VStr "json:1") no_options (VNum 0) w.
Proof.
  intros w w'.
  assert (Hset : Cookies.set "a" (VStr "json:1") no_options w = Ret tt w')
    by (apply set_native; reflexivity).
  assert (Hget : Cookies.get "a" (VNum 0) w' = Ret (VNum 1) w')
    by (apply get_structured with "json:1"; vm_compute; reflexivity).
  split; [exact Hset|]. split; [vm_compute; reflexivity|]. split; [exact Hget|].
  intros H. specialize (H w' Hset). rewrite Hget in H. discriminate.
Qed.

(** The cookie of the README's example. *)
Lemma set_get_structured_witness :
  let person := VObj [("givenName", VStr "John"); ("surname", VStr "Smith");
                      ("age", VNum 20)] in
  let w := Ref.page true true in
  exists w', Cookies.set "my-cookie" person no_options w = Ret tt w'
             /\ codec_get "my-cookie" (jar w') = Some ("json:" +:+ Ref.stringify person)
             /\ Cookies.get "my-cookie" VNull w' = Ret person w'.
Proof.
  intros person w.
  assert (Hu : person <> VUndefined) by discriminate.
  assert (Hs : is_string person = false) by reflexivity.
  assert (Hrt : JSON_parse (JSON_stringify person) = Some person)
    by (vm_compute; reflexivity).
  assert (Hc : codec_get "my-cookie"
                 (native_set (wire_set "my-cookie" ("json:" +:+ JSON_stringify person)
                                no_options) (jar w))
               = Some ("json:" +:+ JSON_stringify person))
    by (vm_compute; reflexivity).
  destruct (set_get_structured (P := Ref.platform) "my-cookie" person no_options VNull w
              Hu Hs Hc) as (_ & _ & Hget & _).
  exists (written (wire_of "my-cookie" person no_options) w).
  assert (Hset : Cookies.set "my-cookie" person no_options w
                 = Ret tt (written (wire_of "my-cookie" person no_options) w))
    by (apply set_native; reflexivity).
  split; [exact Hset|]. split; [vm_compute; reflexivity | exact (Hget Hrt _ Hset)].
Defined.

Lemma interceptor_installed_once_witness :
  let ops := [OpSubscribe "theme" 1%nat; OpAssign "theme=dark";
              OpUnsubscribe (mkUnsubscriber "theme" 1%nat); OpSubscribe "lang" 2%nat] in
  let w := run ops (Ref.page true true) in
  installations w = 1%nat
  /\ installations (run [OpSubscribe "theme" 3%nat; OpSet "lang" (VStr "en") no_options] w)
     = 1%nat
  /\ Cookies.subscribe "theme" 3%nat w
     = Ret (mkUnsubscriber "theme" 3%nat) (Cookies.registry_put "theme" [3%nat] w).
Proof.
  intros ops w.
  destruct (interceptor_installed_once (P := Ref.platform) ops ∅ true true)
    as (_ & Hiff & _ & Hfirst & Hlater).
  assert (Hsub : exists name f, In (OpSubscribe name f) ops)
    by (exists "theme", 1%nat; left; reflexivity).
  assert (Hn : installations w = 1%nat) by exact (Hfirst eq_refl eq_refl Hsub).
  destruct (Hlater (proj2 Hiff Hn)) as [Hmore Hnext].
  split; [exact Hn|]. split.
  - exact (proj2 (Hmore [OpSubscribe "theme" 3%nat; OpSet "lang" (VStr "en") no_options])).
  - destruct (Hnext "theme" 3%nat) as [_ Hs].
    assert (Hslot : Cookies.registry_get "theme" w = SlotArray [])
      by (vm_compute; reflexivity).
    assert (Hcb : callbacks "theme" w = []) by (vm_compute; reflexivity).
    fold (Ref.page true true) in Hs. fold w in Hs.
    rewrite Hs, Hslot, Hcb. reflexivity.
Defined.

Lemma degraded_mode_never_notifies_witness :
  let ops := [OpSubscribe "theme" 1%nat; OpSet "theme" (VStr "dark") no_options;
              OpAssign "theme=light"] in
  let w := run ops (Ref.page false true) in
  notifications w = [] /\ isIntercepting w = false
  /\ callbacks "theme" w = [1%nat]
  /\ Cookies.get "theme" VNull w = Ret (VStr "light") w.
Proof.
  intros ops w.
  destruct (degraded_mode_never_notifies (P := Ref.platform) ops ∅ false true
              (or_introl eq_refl)) as (Hf & _ & _ & Hc & _).
  split; [exact Hc|]. split; [exact Hf|].
  split; [vm_compute; reflexivity|].
  apply get_plain; vm_compute; reflexivity.
Defined.



Lemma get_propagates_parse_failure_witness :
  let w := written "a=json:{" (Ref.page true true) in
  Cookies.get "a" (VNum 0) w = Throw SyntaxError w.
Proof.
  intros w.
  assert (Hc : codec_get "a" (jar w) = Some ("json:" +:+ "{")) by (vm_compute; reflexivity).
  assert (Hp : JSON_parse "{" = None) by (vm_compute; reflexivity).
  exact (get_propagates_parse_failure (P := Ref.platform) "a" "{" (VNum 0) w Hc Hp).
Defined.

Lemma absent_cookie_reported_as_null_witness :
  let w := run [OpSubscribe "theme" 1%nat] (Ref.page true true) in
  List.filter is_call (since w (world_of (Cookies.setter "theme=dark" w)))
  = [EvCall 1%nat (VStr "dark") VNull].
Proof.
  intros w.
  assert (Hin : JS.includes "theme=dark" "=" = true) by reflexivity.
  assert (Habsent : codec_get (name_of "theme=dark") (jar w) = None)
    by (vm_compute; reflexivity).
  destruct (absent_cookie_reported_as_null (P := Ref.platform) "theme=dark" w Hin
              (or_introl Habsent)) as (_ & _ & Hcalls).
  assert (Hnew : Cookies.get (name_of "theme=dark") VNull (written "theme=dark" w)
                 = Ret (VStr "dark") (written "theme=dark" w))
    by (apply get_plain; vm_compute; reflexivity).
  rewrite (Hcalls (VStr "dark") Hnew). vm_compute. reflexivity.
Defined.

Lemma set_null_is_stored_witness :
  let w := Ref.page true true in
  exists w', Cookies.set "a" VNull no_options w = Ret tt w'
             /\ codec_get "a" (jar w') = Some "json:null"
             /\ Cookies.get "a" (VNum 0) w' = Ret VNull w'.
Proof.
  intros w.
  assert (Hs : JSON_stringify VNull = "null") by reflexivity.
  assert (Hp : JSON_parse "null" = Some VNull) by (vm_compute; reflexivity).
  assert (Hc : codec_get "a" (native_set (wire_set "a" "json:null" no_options) (jar w))
               = Some "json:null") by (vm_compute; reflexivity).
  destruct (set_null_is_stored (P := Ref.platform) "a" no_options (VNum 0) w Hs Hp Hc)
    as (_ & Hget & _).
  assert (Hset : Cookies.set "a" VNull no_options w
                 = Ret tt (written (wire_of "a" VNull no_options) w))
    by (apply set_native; reflexivity).
  exists (written (wire_of "a" VNull no_options) w).
  split; [exact Hset|]. split; [vm_compute; reflexivity|].
  exact (proj2 (Hget _ Hset)).
Defined.

(** The scenarios of the specification, on a page that intercepts. *)
Example scenario_age :
  value_of ((Cookies.subscribe "age" 1%nat ;;
             Cookies.set "age" (VNum 20) no_options ;;
             stored <- gets (fun w => codec_get "age" (jar w)) ;;
             first <- Cookies.get "age" (VNum 0) ;;
             Cookies.set "age" (VStr "21") no_options ;;
             second <- Cookies.get "age" (VNum 0) ;;
             calls <- gets notifications ;;
             ret (stored, first, second, calls))%js (Ref.page true true))
  = Some (Some (FoundString "json:20"), VNum 20, VStr "21",
          [EvCall 1%nat (VNum 20) VNull; EvCall 1%nat (VStr "21") (VNum 20)]).
Proof. vm_compute. reflexivity. Qed.

Example scenario_theme :
  value_of ((Cookies.subscribe "theme" 1%nat ;;
             Cookies.subscribe "theme" 2%nat ;;
             Cookies.document_cookie_assign "theme=dark" ;;
             Cookies.document_cookie_assign "theme=dark" ;;
             gets notifications)%js (Ref.page true true))
  = Some [EvCall 1%nat (VStr "dark") VNull; EvCall 2%nat (VStr "dark") VNull;
          EvCall 1%nat (VStr "dark") (VStr "dark");
          EvCall 2%nat (VStr "dark") (VStr "dark")].
Proof. vm_compute. reflexivity. Qed.

(** A name inherited from [Object.prototype] can be neither subscribed
    to nor read, and an intercepted write to it raises when the old value
    is read, before the original setter is called. *)
Example scenario_inherited_name :
  value_of (Cookies.subscribe "toString" 1%nat (Ref.page true true)) = None
  /\ value_of (Cookies.get "toString" VNull (Ref.page true true)) = None
  /\ (let o := (Cookies.subscribe "theme" 1%nat ;;
                Cookies.document_cookie_assign "toString=x")%js (Ref.page true true) in
      value_of o = None /\ List.filter is_write (trace (world_of o)) = []).
Proof. split; [|split; [|split]]; vm_compute; reflexivity. Qed.

End reference_runs.

(** * More of the broker *)

(** ** Subscribing *)

Section registry_facts.
Context {P : Platform}.
Implicit Types (w : World) (name value : string) (f : CookieSubscriber).

Lemma jar_started w : jar (started w) = jar w.
Proof.
  unfold started. destruct (isIntercepting w); [reflexivity|].
  destruct (cookieEnabled w); simpl; [|reflexivity].
  destruct (configurable w); simpl; [|reflexivity].
  now destruct (debug w).
Qed.

Lemma notifications_started w : notifications (started w) = notifications w.
Proof.
  unfold started. destruct (isIntercepting w); [reflexivity|].
  destruct (cookieEnabled w); simpl; [|reflexivity].
  destruct (configurable w); simpl.
  - unfold notifications. simpl.
    destruct (debug w); simpl; rewrite !List.filter_app; simpl;
      now rewrite ?app_nil_r.
  - now apply notifications_more.
Qed.

Lemma callbacks_put name a w : callbacks name (Cookies.registry_put name a w) = a.
Proof. unfold callbacks, Cookies.registry_put. simpl. now rewrite lookup_insert_eq. Qed.

Lemma subscribers_put_other name other a w :
  other <> name ->
  subscribers (Cookies.registry_put name a w) !! other = subscribers w !! other.
Proof. intros H. unfold Cookies.registry_put. simpl. now rewrite lookup_insert_ne. Qed.

Lemma callbacks_started name w : callbacks name (started w) = callbacks name w.
Proof. unfold callbacks. now rewrite subscribers_started. Qed.

Lemma registry_get_started name w :
  Cookies.registry_get name (started w) = Cookies.registry_get name w.
Proof. unfold Cookies.registry_get. now rewrite subscribers_started. Qed.

(** [subscribe] on a name that is not inherited. *)
Lemma subscribe_plain name f w :
  inherited name = false ->
  Cookies.subscribe name f w
  = Ret (mkUnsubscriber name f)
        (Cookies.registry_put name (callbacks name w ++ [f]) (started w)).
Proof.
  intros Hn. rewrite subscribe_started, registry_get_started, callbacks_started.
  unfold Cookies.registry_get. rewrite Hn.
  now destruct (subscribers w !! name).
Qed.

(** The first occurrence of a callback in an entry. *)
Lemma first_occurrence f (a : list CookieSubscriber) :
  f ∈ a -> exists pre post, a = (pre ++ f :: post)%list /\ f ∉ pre.
Proof.
  induction a as [|g a IH]; intros Hin; [now apply elem_of_nil in Hin|].
  destruct (decide (g = f)) as [->|Hne].
  - exists [], a. split; [reflexivity|]. apply not_elem_of_nil.
  - apply elem_of_cons in Hin. destruct Hin as [->|Hin]; [congruence|].
    destruct (IH Hin) as (pre & post & -> & Hpre).
    exists (g :: pre), post. split; [reflexivity|].
    intros H. apply elem_of_cons in H. destruct H as [->|H]; [congruence | auto].
Qed.

(** *** Names of [Object.prototype] never own an entry *)

Lemma plain_registry_put name a w :
  inherited name = false -> plain_registry w ->
  plain_registry (Cookies.registry_put name a w).
Proof.
  intros Hn Hw other Ho. rewrite subscribers_put_other; [now apply Hw|].
  intros ->. congruence.
Qed.

Lemma plain_registry_same w w' :
  subscribers w' = subscribers w -> plain_registry w -> plain_registry w'.
Proof. intros E Hw name Hn. rewrite E. now apply Hw. Qed.

Lemma plain_registry_own name a w :
  plain_registry w -> subscribers w !! name = Some a -> inherited name = false.
Proof.
  intros Hw Ha. destruct (inherited name) eqn:Hn; [|reflexivity].
  rewrite (Hw name Hn) in Ha. discriminate.
Qed.

Lemma plain_registry_step w op : plain_registry w -> plain_registry (step w op).
Proof.
  intros Hw. destruct op as [name f|[name f]|name d|name v o|value|b]; simpl.
  - destruct (inherited name) eqn:Hn.
    + rewrite subscribe_started, registry_get_started.
      unfold Cookies.registry_get. rewrite (Hw name Hn), Hn. simpl.
      apply (plain_registry_same w); [apply subscribers_started | exact Hw].
    + rewrite (subscribe_plain name f w Hn). simpl.
      apply plain_registry_put; [exact Hn|].
      apply (plain_registry_same w); [apply subscribers_started | exact Hw].
  - destruct (subscribers w !! name) as [a|] eqn:Ha.
    + rewrite (unsubscribe_own name f w a Ha). simpl.
      apply plain_registry_put; [|exact Hw]. now apply (plain_registry_own name a w).
    + now rewrite (unsubscribe_none name f w Ha).
  - now rewrite get_world.
  - rewrite set_assigns.
    apply (plain_registry_same w); [apply subscribers_assign | exact Hw].
  - apply (plain_registry_same w); [apply subscribers_assign | exact Hw].
  - exact Hw.
Qed.

Lemma plain_registry_run ops w : plain_registry w -> plain_registry (run ops w).
Proof.
  revert w. induction ops as [|op ops IH]; intros w H; simpl; [exact H|].
  apply IH. now apply plain_registry_step.
Qed.

Lemma plain_registry_init j enabled conf : plain_registry (init j enabled conf).
Proof. intros name _. apply lookup_empty. Qed.

End registry_facts.

(** X1.  [subscribe(name, f)], for a name that is not one of
    [Object.prototype]'s, returns the closure of [(name, f)] and appends
    [f] to the entry of [name], which it creates when there is none; the
    entries of the other names, the cookies and the calls made so far are
    as they were. *)
Theorem subscribe_appends {P : Platform} (name : string) (f : CookieSubscriber)
    (w : World) :
  inherited name = false ->
  exists w', Cookies.subscribe name f w = Ret (mkUnsubscriber name f) w'
    /\ subscribers w' !! name = Some (callbacks name w ++ [f])%list
    /\ (forall other, other <> name -> subscribers w' !! other = subscribers w !! other)
    /\ jar w' = jar w
    /\ notifications w' = notifications w.
Proof.
  intros Hn. eexists. split; [now apply subscribe_plain|].
  split; [unfold Cookies.registry_put; simpl; now rewrite lookup_insert_eq|].
  split; [intros other Ho; rewrite subscribers_put_other by exact Ho;
          now rewrite subscribers_started|].
  split; [apply jar_started | apply notifications_started].
Qed.

(** X2.  Subscriptions are kept in the order they are made, duplicates
    included: after the callbacks [fs] subscribed one after the other to a
    name that is not one of [Object.prototype]'s, the entry of the name is
    what it was, followed by [fs]. *)
Theorem subscriptions_in_order {P : Platform} (name : string)
    (fs : list CookieSubscriber) (w : World) :
  inherited name = false ->
  callbacks name (run (List.map (OpSubscribe name) fs) w)
  = (callbacks name w ++ fs)%list.
Proof.
  intros Hn. revert w. induction fs as [|f fs IH]; intros w; simpl.
  - now rewrite app_nil_r.
  - rewrite IH. rewrite (subscribe_plain name f w Hn). simpl.
    rewrite callbacks_put. now rewrite <- app_assoc.
Qed.

(** X3.  On every page a run can reach, [subscribe] to a name that every
    object inherits from [Object.prototype] (such as "toString") raises a
    [TypeError] and registers nothing; the interceptor is installed by
    that call all the same when the page allows it. *)
Theorem subscribe_inherited_name_raises {P : Platform} (ops : list Op) (j : Jar)
    (enabled conf : bool) (name : string) (f : CookieSubscriber) :
  inherited name = true ->
  let w := run ops (init j enabled conf) in
  exists w', Cookies.subscribe name f w = Throw TypeError w'
    /\ subscribers w' = subscribers w
    /\ jar w' = jar w
    /\ (enabled = true -> conf = true -> isIntercepting w' = true).
Proof.
  intros Hn w.
  assert (Hw : plain_registry w) by apply plain_registry_run, plain_registry_init.
  exists (started w). split.
  - rewrite subscribe_started, registry_get_started.
    unfold Cookies.registry_get. now rewrite (Hw name Hn), Hn.
  - split; [apply subscribers_started|]. split; [apply jar_started|].
    intros He Hc. destruct (run_environment ops (init j enabled conf)) as [He' Hc'].
    fold w in He', Hc'. simpl in He', Hc'.
    unfold started. destruct (isIntercepting w) eqn:Hf; [exact Hf|].
    now rewrite He', Hc', He, Hc.
Qed.

(** ** The closure [subscribe] returns *)

Section closure_facts.
Context {P : Platform}.
Implicit Types (w : World) (name value : string) (f : CookieSubscriber).

Lemma take_all_but_last (b : list CookieSubscriber) g :
  take (List.length (b ++ [g]) - 1) (b ++ [g]) = b.
Proof.
  rewrite length_app. simpl.
  replace (List.length b + 1 - 1)%nat with (List.length b) by lia.
  apply take_app_length.
Qed.

(** Whoever is called by an intercepted write is registered under the
    written name, and is called with the values the interceptor read. *)
Lemma setter_call_inv value w f newValue oldValue :
  In (EvCall f newValue oldValue) (since w (world_of (Cookies.setter value w))) ->
  f ∈ callbacks (name_of value) w
  /\ Cookies.get (name_of value) VNull w = Ret oldValue w
  /\ Cookies.get (name_of value) VNull (written value w) = Ret newValue (written value w).
Proof.
  destruct (setter_cases value w)
    as [[Hin E]|[(Hin & e & _ & E)|[(Hin & o & e & _ & _ & E)|(Hin & o & n & Ho & Hn & _)]]].
  - rewrite E. simpl. rewrite (since_more w (written value w) [EvSetCookie value]) by reflexivity.
    intros [H|[]]. discriminate.
  - rewrite E. simpl. rewrite (since_more w w []) by now rewrite app_nil_r.
    intros [].
  - rewrite E. simpl. rewrite (since_more w (written value w) [EvSetCookie value]) by reflexivity.
    intros [H|[]]. discriminate.
  - rewrite (setter_world value w o n Hin Ho Hn).
    rewrite (since_more _ _ _ (trace_intercepted value o n w)).
    intros [H|H]; [discriminate|].
    apply in_app_or in H. destruct H as [H|H].
    + destruct (debug w); [destruct H as [H|[]]; discriminate | destruct H].
    + apply in_map_iff in H. destruct H as (g & Hg & Hin').
      injection Hg as -> -> ->. split; [now apply list_elem_of_In|]. now split.
Qed.

End closure_facts.

(** X4.  The closure of [(name, f)], run while [f] is in the entry of
    [name], leaves in the entry exactly the callbacks that come before the
    first [f]: [f] goes, and so does every callback behind it.  The other
    entries, the cookies and the trace are as they were. *)
Theorem unsubscribe_cuts_entry {P : Platform} (name : string) (f : CookieSubscriber)
    (pre post : list CookieSubscriber) (w : World) :
  f ∉ pre -> subscribers w !! name = Some (pre ++ f :: post)%list ->
  exists w', Cookies.unsubscribe (mkUnsubscriber name f) w = Ret tt w'
    /\ subscribers w' !! name = Some pre
    /\ (forall other, other <> name -> subscribers w' !! other = subscribers w !! other)
    /\ jar w' = jar w /\ trace w' = trace w.
Proof.
  intros Hf Ha. eexists. split; [exact (unsubscribe_present name f w pre post Hf Ha)|].
  split; [unfold Cookies.registry_put; simpl; now rewrite lookup_insert_eq|].
  split; [intros other Ho; now apply subscribers_put_other|].
  now split.
Qed.

(** X5.  The closure of [(name, f)], run while [f] is not in the entry of
    [name] (it was removed before), removes the last callback of the
    entry, whoever subscribed it; on an empty entry it does nothing. *)
Theorem unsubscribe_again_removes_last {P : Platform} (name : string)
    (f : CookieSubscriber) (a : list CookieSubscriber) (w : World) :
  f ∉ a -> subscribers w !! name = Some a ->
  exists w', Cookies.unsubscribe (mkUnsubscriber name f) w = Ret tt w'
    /\ (a = [] -> subscribers w' !! name = Some [])
    /\ (forall b g, a = (b ++ [g])%list -> subscribers w' !! name = Some b).
Proof.
  intros Hf Ha. eexists. split; [exact (unsubscribe_absent name f w a Hf Ha)|].
  unfold Cookies.registry_put. simpl. rewrite lookup_insert_eq. split.
  - now intros ->.
  - intros b g ->. now rewrite take_all_but_last.
Qed.

(** X6.  For a callback [f] that is not yet in the entry of [name] (and a
    name that is not one of [Object.prototype]'s), [subscribe(name, f)]
    followed at once by the closure it returned gives back the callbacks
    the entry had, and touches no other entry. *)
Theorem subscribe_then_unsubscribe {P : Platform} (name : string)
    (f : CookieSubscriber) (w : World) :
  inherited name = false -> f ∉ callbacks name w ->
  exists w', (u <- Cookies.subscribe name f ;; Cookies.unsubscribe u)%js w = Ret tt w'
    /\ callbacks name w' = callbacks name w
    /\ (forall other, other <> name -> subscribers w' !! other = subscribers w !! other).
Proof.
  intros Hn Hf. unfold bind. rewrite (subscribe_plain name f w Hn).
  assert (Hentry : subscribers (Cookies.registry_put name (callbacks name w ++ [f]) (started w))
                   !! name = Some (callbacks name w ++ [f])%list)
    by (unfold Cookies.registry_put; simpl; now rewrite lookup_insert_eq).
  rewrite (unsubscribe_present name f _ (callbacks name w) [] Hf Hentry).
  eexists. split; [reflexivity|]. split; [apply callbacks_put|].
  intros other Ho. rewrite !subscribers_put_other by exact Ho.
  now rewrite subscribers_started.
Qed.

(** X7.  The closure a [subscribe] returned never raises, whatever the
    page did since, and it changes nothing but the registry: the cookies
    and the trace are as they were. *)
Theorem closure_never_raises {P : Platform} (name : string) (f : CookieSubscriber)
    (w w1 : World) (u : CookieUnsubscriber) (ops : list Op) :
  Cookies.subscribe name f w = Ret u w1 ->
  let w2 := run ops w1 in
  exists w3, Cookies.unsubscribe u w2 = Ret tt w3
    /\ jar w3 = jar w2 /\ trace w3 = trace w2.
Proof.
  intros Hsub w2. destruct (unsubscribe_returns name f w u w1 ops Hsub) as [-> Hret].
  fold w2 in Hret.
  destruct (subscribers w2 !! name) as [a|] eqn:Ha.
  - rewrite (unsubscribe_own name f w2 a Ha). eexists. split; [reflexivity|]. now split.
  - rewrite (unsubscribe_none name f w2 Ha) in Hret. destruct Hret.
Qed.

(** X8.  Once the closure of [(name, f)] has run on an entry that holds
    [f], [f] is no longer in the entry and no intercepted write to [name]
    calls it. *)
Theorem unsubscribed_callback_not_called {P : Platform} (name : string)
    (f : CookieSubscriber) (a : list CookieSubscriber) (w : World) :
  subscribers w !! name = Some a -> f ∈ a ->
  exists w', Cookies.unsubscribe (mkUnsubscriber name f) w = Ret tt w'
    /\ (f ∉ callbacks name w')
    /\ (forall value newValue oldValue,
          name_of value = name ->
          ~ In (EvCall f newValue oldValue) (since w' (world_of (Cookies.setter value w')))).
Proof.
  intros Ha Hin. destruct (first_occurrence f a Hin) as (pre & post & -> & Hpre).
  eexists. split; [exact (unsubscribe_present name f w pre post Hpre Ha)|].
  assert (Hcb : callbacks name (Cookies.registry_put name pre w) = pre)
    by apply callbacks_put.
  split; [now rewrite Hcb|].
  intros value newValue oldValue Hname Hcall.
  apply setter_call_inv in Hcall. destruct Hcall as (Hf & _).
  rewrite Hname, Hcb in Hf. contradiction.
Qed.

(** ** More on intercepted writes *)

(** X9.  An intercepted write calls nobody but the callbacks registered
    under the name it writes, and only with the new and the old value it
    read for that name; it leaves the registry as it was. *)
Theorem setter_calls_only_registered {P : Platform} (value : string) (w : World) :
  subscribers (world_of (Cookies.setter value w)) = subscribers w
  /\ forall f newValue oldValue,
       In (EvCall f newValue oldValue) (since w (world_of (Cookies.setter value w))) ->
       f ∈ callbacks (name_of value) w
       /\ Cookies.get (name_of value) VNull w = Ret oldValue w
       /\ Cookies.get (name_of value) VNull (written value w)
          = Ret newValue (written value w).
Proof.
  split; [apply subscribers_setter|].
  intros f newValue oldValue. apply setter_call_inv.
Qed.

(** X10.  While the interceptor is installed and the cookie stored under
    a name is "json:" followed by text that [JSON.parse] rejects, every
    assignment to [document.cookie] for that name, and so every [set]
    whose written string carries that name, raises a [SyntaxError] and
    leaves the page as it was: the cookie cannot be overwritten or
    deleted. *)
Theorem corrupt_cookie_blocks_writes {P : Platform} (name rest : string) (w : World) :
  installed w = true ->
  codec_get name (jar w) = Some ("json:" +:+ rest) ->
  JSON_parse rest = None ->
  (forall value, JS.includes value "=" = true -> name_of value = name ->
     Cookies.document_cookie_assign value w = Throw SyntaxError w)
  /\ (forall key v o,
        JS.includes (wire_of key v o) "=" = true -> name_of (wire_of key v o) = name ->
        Cookies.set key v o w = Throw SyntaxError w).
Proof.
  intros Hi Hc Hp.
  assert (H : forall value, JS.includes value "=" = true -> name_of value = name ->
                Cookies.document_cookie_assign value w = Throw SyntaxError w).
  { intros value Hin Hname. rewrite assign_intercepted by exact Hi.
    apply setter_old_unreadable; [exact Hin|]. rewrite Hname.
    rewrite (get_prefixed name VNull w rest Hc). now rewrite Hp. }
  split; [exact H|].
  intros key v o Hin Hname. rewrite set_assigns. now apply H.
Qed.

(** X11.  An intercepted write that stores "json:" followed by text that
    [JSON.parse] rejects is performed, then raises a [SyntaxError] when
    the new value is read: the cookie is written and no subscriber is
    called. *)
Theorem corrupt_write_is_not_announced {P : Platform} (value rest : string)
    (oldValue : Value) (w : World) :
  JS.includes value "=" = true ->
  Cookies.get (name_of value) VNull w = Ret oldValue w ->
  codec_get (name_of value) (native_set value (jar w)) = Some ("json:" +:+ rest) ->
  JSON_parse rest = None ->
  exists w', Cookies.setter value w = Throw SyntaxError w'
    /\ jar w' = native_set value (jar w)
    /\ since w w' = [EvSetCookie value]
    /\ subscribers w' = subscribers w.
Proof.
  intros Hin Hold Hc Hp. exists (written value w). split.
  - apply setter_new_unreadable with oldValue; [exact Hin | exact Hold |].
    rewrite (get_prefixed (name_of value) VNull (written value w) rest Hc).
    now rewrite Hp.
  - split; [reflexivity|]. split; [now apply since_more | reflexivity].
Qed.

(** ** [set] on a page that intercepts *)

Section announced_writes.
Context {P : Platform}.
Implicit Types (w : World) (name value : string) (f : CookieSubscriber).

Lemma calls_of_intercepted value oldValue newValue w :
  List.filter is_call
    (EvSetCookie value
      :: (if debug w
          then [EvLog (LogWrite (name_of value) (JSON_stringify oldValue)
                                (JSON_stringify newValue))]
          else [])
      ++ List.map (fun f => EvCall f newValue oldValue) (callbacks (name_of value) w))%list
  = List.map (fun f => EvCall f newValue oldValue) (callbacks (name_of value) w).
Proof.
  simpl. rewrite List.filter_app.
  replace (List.filter is_call
             (if debug w
              then [EvLog (LogWrite (name_of value) (JSON_stringify oldValue)
                                    (JSON_stringify newValue))]
              else [])) with (@nil Event) by now destruct (debug w).
  simpl. induction (callbacks (name_of value) w) as [|g a IH]; simpl; [reflexivity|].
  now rewrite IH.
Qed.

(** An assignment the interceptor sees through to the end. *)
Lemma assign_announced value oldValue newValue w :
  installed w = true ->
  JS.includes value "=" = true ->
  Cookies.get (name_of value) VNull w = Ret oldValue w ->
  Cookies.get (name_of value) VNull (written value w) = Ret newValue (written value w) ->
  inherited (name_of value) = false ->
  exists w', Cookies.document_cookie_assign value w = Ret tt w'
    /\ jar w' = native_set value (jar w)
    /\ since w w'
       = (EvSetCookie value
           :: (if debug w
               then [EvLog (LogWrite (name_of value) (JSON_stringify oldValue)
                                     (JSON_stringify newValue))]
               else [])
           ++ List.map (fun f => EvCall f newValue oldValue)
                       (callbacks (name_of value) w))%list.
Proof.
  intros Hi Hin Hold Hnew Hn.
  exists (dispatched (name_of value) newValue oldValue
            (logged (name_of value) oldValue newValue (written value w))).
  split; [|split].
  - rewrite assign_intercepted by exact Hi.
    rewrite (setter_intercepts value w oldValue newValue Hin Hold Hnew).
    unfold Cookies.registry_get. rewrite Hn.
    now destruct (subscribers w !! name_of value).
  - unfold dispatched, logged. now destruct (debug (written value w)).
  - apply since_more, trace_intercepted.
Qed.

End announced_writes.

(** X12.  On a page that intercepts, [set(name, value, options)] calls
    every callback registered under [name] exactly once, in subscription
    order, with the value read after the write and the value read before
    it, provided the string the codec writes carries [name] before its
    first "=" ([name] not being one of [Object.prototype]'s) and both
    reads succeed. *)
Theorem set_calls_subscribers {P : Platform} (name : string) (v : Value)
    (o : CookieOptions) (oldValue newValue : Value) (w : World) :
  installed w = true ->
  JS.includes (wire_of name v o) "=" = true ->
  name_of (wire_of name v o) = name ->
  inherited name = false ->
  Cookies.get name VNull w = Ret oldValue w ->
  Cookies.get name VNull (written (wire_of name v o) w)
    = Ret newValue (written (wire_of name v o) w) ->
  exists w', Cookies.set name v o w = Ret tt w'
    /\ jar w' = native_set (wire_of name v o) (jar w)
    /\ List.filter is_call (since w w')
       = List.map (fun f => EvCall f newValue oldValue) (callbacks name w).
Proof.
  intros Hi Hin Hname Hn Hold Hnew.
  pose proof (assign_announced (wire_of name v o) oldValue newValue w Hi Hin) as H.
  pose proof (calls_of_intercepted (wire_of name v o) oldValue newValue w) as Hcalls.
  rewrite Hname in H, Hcalls.
  destruct (H Hold Hnew Hn) as (w' & Hset & Hjar & Hsince).
  exists w'. rewrite set_assigns. split; [exact Hset|]. split; [exact Hjar|].
  now rewrite Hsince.
Qed.

(** X13.  On a page that intercepts, deleting a cookie with
    [set(name, undefined, options)] announces it: when the codec finds no
    cookie under [name] after the write, every callback registered under
    [name] is called with [null] as the new value and the value read
    before the write as the old one. *)
Theorem delete_calls_subscribers_with_null {P : Platform} (name : string)
    (o : CookieOptions) (oldValue : Value) (w : World) :
  installed w = true ->
  JS.includes (wire_remove name o) "=" = true ->
  name_of (wire_remove name o) = name ->
  inherited name = false ->
  Cookies.get name VNull w = Ret oldValue w ->
  codec_get name (native_set (wire_remove name o) (jar w)) = None ->
  exists w', Cookies.set name VUndefined o w = Ret tt w'
    /\ List.filter is_call (since w w')
       = List.map (fun f => EvCall f VNull oldValue) (callbacks name w)
    /\ forall d, Cookies.get name d w' = Ret d w'.
Proof.
  intros Hi Hin Hname Hn Hold Hgone.
  assert (Hnew : Cookies.get name VNull (written (wire_remove name o) w)
                 = Ret VNull (written (wire_remove name o) w))
    by now apply get_absent.
  pose proof (assign_announced (wire_remove name o) oldValue VNull w Hi Hin) as H.
  pose proof (calls_of_intercepted (wire_remove name o) oldValue VNull w) as Hcalls.
  rewrite Hname in H, Hcalls.
  destruct (H Hold Hnew Hn) as (w' & Hset & Hjar & Hsince).
  exists w'. split; [exact Hset|]. split.
  - now rewrite Hsince.
  - intros d. apply get_absent. now rewrite Hjar.
Qed.

(** ** Installation attempts *)

Section attempts.
Context {P : Platform}.
Implicit Types (w : World) (name value : string) (f : CookieSubscriber).

Lemma blocked_lines_more w evs :
  blocked_lines (with_trace (trace w ++ evs) w)
  = (blocked_lines w + List.length (List.filter is_blocked evs))%nat.
Proof. unfold blocked_lines. simpl. now rewrite List.filter_app, length_app. Qed.

Lemma blocked_lines_step w op :
  degraded w ->
  blocked_lines (step w op)
  = (blocked_lines w
     + if is_subscribe op && cookieEnabled w then 1 else 0)%nat.
Proof.
  intros Hd. pose proof (started_degraded w Hd) as Hs.
  destruct Hd as (He & Hf & Hi & Hn & Hc).
  assert (Hst : blocked_lines (started w)
                = (blocked_lines w + if cookieEnabled w then 1 else 0)%nat).
  { rewrite Hs. destruct (cookieEnabled w); [|lia].
    now rewrite (blocked_lines_more w [EvLog LogBlocked]). }
  destruct op as [name f|[name f]|name d|name v o|value|b]; simpl.
  - rewrite subscribe_started.
    destruct (Cookies.registry_get name (started w)); simpl; exact Hst.
  - destruct (subscribers w !! name) as [a|] eqn:Ha.
    + rewrite (unsubscribe_own name f w a Ha). simpl. unfold blocked_lines. simpl. lia.
    + rewrite (unsubscribe_none name f w Ha). simpl. lia.
  - rewrite get_world. lia.
  - rewrite set_assigns, assign_native by exact Hi. simpl.
    unfold written. rewrite (blocked_lines_more (with_jar _ w) [EvSetCookie _]).
    unfold blocked_lines. simpl. lia.
  - rewrite assign_native by exact Hi. simpl.
    unfold written. rewrite (blocked_lines_more (with_jar _ w) [EvSetCookie _]).
    unfold blocked_lines. simpl. lia.
  - unfold blocked_lines. simpl. lia.
Qed.

Lemma blocked_lines_run ops w :
  degraded w ->
  blocked_lines (run ops w)
  = (blocked_lines w + if cookieEnabled w then subscriptions ops else 0)%nat.
Proof.
  revert w. induction ops as [|op ops IH]; intros w Hd; simpl.
  - unfold subscriptions. simpl. destruct (cookieEnabled w); lia.
  - rewrite (IH (step w op) (degraded_step w op Hd)).
    rewrite (blocked_lines_step w op Hd).
    destruct (step_environment w op) as [-> _].
    unfold subscriptions. simpl.
    destruct (is_subscribe op), (cookieEnabled w); simpl; lia.
Qed.

Lemma untouched_written value w : untouched w -> untouched (written value w).
Proof.
  intros (Hi & Hf & Hs & Ht). repeat split; try assumption.
  unfold written. simpl. apply Forall_app. split; [exact Ht|].
  constructor; [now exists value | constructor].
Qed.

Lemma untouched_step w op :
  is_subscribe op = false -> untouched w -> untouched (step w op).
Proof.
  intros Hop Hw. destruct op as [name f|[name f]|name d|name v o|value|b]; simpl.
  - discriminate.
  - destruct Hw as (Hi & Hf & Hs & Ht).
    rewrite (unsubscribe_none name f w); [now repeat split|].
    rewrite Hs. apply lookup_empty.
  - now rewrite get_world.
  - rewrite set_assigns, assign_native by apply Hw. now apply untouched_written.
  - rewrite assign_native by apply Hw. now apply untouched_written.
  - destruct Hw as (Hi & Hf & Hs & Ht). now repeat split.
Qed.

End attempts.

(** X14.  A page whose cookie accessor is not configurable retries the
    installation at every [subscribe] and logs the "interception has been
    blocked" line each time, whatever [Cookies.debug] is; a page with
    cookies disabled never logs it. *)
Theorem blocked_installation_is_retried {P : Platform} (ops : list Op) (j : Jar)
    (enabled conf : bool) :
  enabled = false \/ conf = false ->
  blocked_lines (run ops (init j enabled conf))
  = if enabled then subscriptions ops else 0%nat.
Proof.
  intros Henv.
  rewrite (blocked_lines_run ops (init j enabled conf) (degraded_init j enabled conf Henv)).
  reflexivity.
Qed.

(** X15.  As long as nobody subscribes, the broker leaves the page alone:
    whatever [get], [set] and assignments to [document.cookie] do, the
    accessor stays the browser's, the flag stays unset,
    the registry stays empty and the only things observed are the writes
    of the original setter. *)
Theorem nothing_installed_without_subscribe {P : Platform} (ops : list Op) (j : Jar)
    (enabled conf : bool) :
  subscriptions ops = 0%nat ->
  untouched (run ops (init j enabled conf)).
Proof.
  assert (H : forall w, untouched w -> subscriptions ops = 0%nat -> untouched (run ops w)).
  { induction ops as [|op ops IH]; intros w Hw Hops; simpl; [exact Hw|].
    unfold subscriptions in Hops. simpl in Hops.
    destruct (is_subscribe op) eqn:Hop; [discriminate|].
    apply IH; [now apply untouched_step | exact Hops]. }
  intros Hops. apply H; [|exact Hops].
  repeat split. constructor.
Qed.

(** ** What [Cookies.debug] changes *)

Section debug_facts.
Context {P : Platform}.
Implicit Types (w : World) (name value : string) (f : CookieSubscriber).

Lemma get_Ret_jar name d w1 w2 v :
  jar w1 = jar w2 -> Cookies.get name d w1 = Ret v w1 -> Cookies.get name d w2 = Ret v w2.
Proof.
  unfold Cookies.get, bind, gets, ret, throw. intros <-.
  destruct (codec_get name (jar w1)) as [[res|]|]; [|discriminate|now intros [= <-]].
  destruct (JS.startsWith res "json:"); [|now intros [= <-]].
  destruct (JSON_parse (JS.slice res 5)); [now intros [= <-] | discriminate].
Qed.

Lemma get_Throw_jar name d w1 w2 e :
  jar w1 = jar w2 -> Cookies.get name d w1 = Throw e w1 -> Cookies.get name d w2 = Throw e w2.
Proof.
  unfold Cookies.get, bind, gets, ret, throw. intros <-.
  destruct (codec_get name (jar w1)) as [[res|]|]; [|now intros [= <-]|discriminate].
  destruct (JS.startsWith res "json:"); [|discriminate].
  destruct (JSON_parse (JS.slice res 5)); [discriminate | now intros [= <-]].
Qed.

Lemma same_but_log_more w1 w2 evs1 evs2 :
  List.filter (fun e => negb (is_log e)) evs1 = List.filter (fun e => negb (is_log e)) evs2 ->
  same_but_log w1 w2 ->
  same_but_log (with_trace (trace w1 ++ evs1) w1) (with_trace (trace w2 ++ evs2) w2).
Proof.
  intros He (Hj & Hce & Hcf & Hi & Hs & Hf & Ht). repeat split; try assumption.
  simpl. now rewrite !List.filter_app, Ht, He.
Qed.

Lemma same_but_log_written value w1 w2 :
  same_but_log w1 w2 -> same_but_log (written value w1) (written value w2).
Proof.
  intros (Hj & Hce & Hcf & Hi & Hs & Hf & Ht). unfold written.
  apply (same_but_log_more (with_jar _ w1) (with_jar _ w2) [EvSetCookie value]
           [EvSetCookie value]); [reflexivity|].
  repeat split; try assumption. simpl. now rewrite Hj.
Qed.

Lemma same_but_log_logged name oldValue newValue w1 w2 :
  same_but_log w1 w2 ->
  same_but_log (logged name oldValue newValue w1) (logged name oldValue newValue w2).
Proof.
  intros H. unfold logged.
  destruct (debug w1), (debug w2); try exact H.
  - now apply same_but_log_more.
  - rewrite <- (with_trace_nothing w2).
    now apply (same_but_log_more w1 w2 [EvLog _] []).
  - rewrite <- (with_trace_nothing w1).
    now apply (same_but_log_more w1 w2 [] [EvLog _]).
Qed.

Lemma same_but_log_dispatched name newValue oldValue w1 w2 :
  same_but_log w1 w2 ->
  same_but_log (dispatched name newValue oldValue w1) (dispatched name newValue oldValue w2).
Proof.
  intros H. unfold dispatched.
  assert (E : callbacks name w1 = callbacks name w2).
  { unfold callbacks. destruct H as (_ & _ & _ & _ & -> & _). reflexivity. }
  rewrite E. now apply same_but_log_more.
Qed.

Lemma same_but_log_put name a w1 w2 :
  same_but_log w1 w2 ->
  same_but_log (Cookies.registry_put name a w1) (Cookies.registry_put name a w2).
Proof.
  intros (Hj & Hce & Hcf & Hi & Hs & Hf & Ht). repeat split; try assumption.
  simpl. now rewrite Hs.
Qed.

Lemma same_but_log_started w1 w2 :
  same_but_log w1 w2 -> same_but_log (started w1) (started w2).
Proof.
  intros H. pose proof H as (Hj & Hce & Hcf & Hi & Hs & Hf & Ht).
  unfold started. rewrite <- Hf, <- Hce, <- Hcf.
  destruct (isIntercepting w1) eqn:Ef; [exact H|].
  destruct (cookieEnabled w1) eqn:Ee; simpl; [|exact H].
  destruct (configurable w1) eqn:Ec; simpl; [|now apply same_but_log_more].
  assert (Htr : forall (b1 b2 : bool),
            List.filter (fun e => negb (is_log e))
              (trace (if b1 then with_trace (trace w1 ++ [EvLog LogStart]) w1 else w1)
               ++ [EvDefineProperty])
            = List.filter (fun e => negb (is_log e))
                (trace (if b2 then with_trace (trace w2 ++ [EvLog LogStart]) w2 else w2)
                 ++ [EvDefineProperty])).
  { intros b1 b2. destruct b1, b2; simpl; rewrite !List.filter_app; simpl;
      rewrite ?app_nil_r; now rewrite Ht. }
  split; [destruct (debug w1), (debug w2); exact Hj|].
  split; [destruct (debug w1), (debug w2); simpl; congruence|].
  split; [destruct (debug w1), (debug w2); simpl; congruence|].
  split; [reflexivity|].
  split; [destruct (debug w1), (debug w2); exact Hs|].
  split; [reflexivity|].
  simpl. apply Htr.
Qed.

Lemma same_but_log_setter value w1 w2 :
  same_but_log w1 w2 ->
  same_but_log (world_of (Cookies.setter value w1)) (world_of (Cookies.setter value w2)).
Proof.
  intros H.
  assert (Hj : jar w1 = jar w2) by apply H.
  assert (Hjw : jar (written value w1) = jar (written value w2))
    by (unfold written; simpl; now rewrite Hj).
  assert (Hreg : Cookies.registry_get (name_of value) w1 = Cookies.registry_get (name_of value) w2).
  { unfold Cookies.registry_get. destruct H as (_ & _ & _ & _ & -> & _). reflexivity. }
  destruct (setter_cases value w1)
    as [[Hin E]|[(Hin & e & Ho & E)|[(Hin & o & e & Ho & Hn & E)|(Hin & o & n & Ho & Hn & E)]]];
    rewrite E.
  - rewrite (setter_passes value w2 Hin). simpl. now apply same_but_log_written.
  - rewrite (setter_old_unreadable value w2 e Hin (get_Throw_jar _ _ _ _ _ Hj Ho)).
    exact H.
  - rewrite (setter_new_unreadable value w2 o e Hin (get_Ret_jar _ _ _ _ _ Hj Ho)
               (get_Throw_jar _ _ _ _ _ Hjw Hn)).
    simpl. now apply same_but_log_written.
  - rewrite (setter_intercepts value w2 o n Hin (get_Ret_jar _ _ _ _ _ Hj Ho)
               (get_Ret_jar _ _ _ _ _ Hjw Hn)).
    rewrite <- Hreg.
    assert (Hl : same_but_log (logged (name_of value) o n (written value w1))
                              (logged (name_of value) o n (written value w2)))
      by now apply same_but_log_logged, same_but_log_written.
    destruct (Cookies.registry_get (name_of value) w1); simpl;
      first [now apply same_but_log_dispatched | exact Hl].
Qed.

Lemma same_but_log_assign value w1 w2 :
  same_but_log w1 w2 ->
  same_but_log (world_of (Cookies.document_cookie_assign value w1))
               (world_of (Cookies.document_cookie_assign value w2)).
Proof.
  intros H. assert (Hi : installed w1 = installed w2) by apply H.
  destruct (installed w1) eqn:Hi1.
  - rewrite !assign_intercepted by congruence. now apply same_but_log_setter.
  - rewrite !assign_native by congruence. now apply same_but_log_written.
Qed.

Lemma same_but_log_step w1 w2 op :
  same_but_log w1 w2 -> same_but_log (step w1 op) (step w2 (mute_op op)).
Proof.
  intros H. destruct op as [name f|[name f]|name d|name v o|value|b]; simpl.
  - rewrite !subscribe_started.
    pose proof (same_but_log_started w1 w2 H) as Hs.
    assert (Hreg : Cookies.registry_get name (started w1) = Cookies.registry_get name (started w2)).
    { unfold Cookies.registry_get. destruct Hs as (_ & _ & _ & _ & -> & _). reflexivity. }
    assert (Hcb : callbacks name (started w1) = callbacks name (started w2)).
    { unfold callbacks. destruct Hs as (_ & _ & _ & _ & -> & _). reflexivity. }
    rewrite <- Hreg, <- Hcb.
    destruct (Cookies.registry_get name (started w1)); simpl;
      first [now apply same_but_log_put | exact Hs].
  - assert (Hs : subscribers w1 = subscribers w2) by apply H.
    destruct (subscribers w1 !! name) as [a|] eqn:Ha.
    + rewrite (unsubscribe_own name f w1 a Ha).
      rewrite (unsubscribe_own name f w2 a) by now rewrite <- Hs.
      simpl. now apply same_but_log_put.
    + rewrite (unsubscribe_none name f w1 Ha).
      rewrite (unsubscribe_none name f w2) by now rewrite <- Hs.
      exact H.
  - now rewrite !get_world.
  - rewrite !set_assigns. now apply same_but_log_assign.
  - now apply same_but_log_assign.
  - destruct H as (Hj & Hce & Hcf & Hi & Hs & Hf & Ht). now repeat split.
Qed.

End debug_facts.

(** X16.  [Cookies.debug] changes nothing but the log: the same run with
    the flag off from the start and kept off ends with the same cookies,
    the same registry, the same accessor and flag, and the same writes,
    installation and calls in the same order. *)
Theorem debug_only_changes_the_log {P : Platform} (ops : list Op) (j : Jar)
    (enabled conf : bool) :
  same_but_log (run ops (init j enabled conf))
               (run (mute ops) (with_debug false (init j enabled conf))).
Proof.
  assert (H : forall w1 w2, same_but_log w1 w2 ->
                same_but_log (run ops w1) (run (mute ops) w2)).
  { induction ops as [|op ops IH]; intros w1 w2 Hw; simpl; [exact Hw|].
    apply IH. now apply same_but_log_step. }
  apply H. now repeat split.
Qed.

(** ** The hook *)

Section hook_facts.
Context {P : Platform}.
Implicit Types (w : World) (name value : string) (f : CookieSubscriber)
  (h : UseCookie.Hook).

Lemma effect_Ret_inv h w v u w1 :
  UseCookie.effect h w = Ret (v, u) w1 ->
  Cookies.get (UseCookie.hook_name h) (UseCookie.hook_default h) w = Ret v w
  /\ Cookies.subscribe (UseCookie.hook_name h) (UseCookie.hook_listener h) w = Ret u w1.
Proof.
  unfold UseCookie.effect, bind, ret.
  destruct (Cookies.get (UseCookie.hook_name h) (UseCookie.hook_default h) w)
    as [v0 w0|e w0] eqn:Hg; [|discriminate].
  apply get_Ret in Hg as Hw0. subst w0.
  destruct (Cookies.subscribe (UseCookie.hook_name h) (UseCookie.hook_listener h) w)
    as [u0 w0|e w0]; [|discriminate].
  now intros [= <- <- <-].
Qed.

Lemma subscribe_Ret_inv name f w u w1 :
  Cookies.subscribe name f w = Ret u w1 ->
  u = mkUnsubscriber name f
  /\ w1 = Cookies.registry_put name (callbacks name w ++ [f]) (started w).
Proof.
  rewrite subscribe_started, registry_get_started, callbacks_started.
  destruct (Cookies.registry_get name w); try discriminate; now intros [= <- <-].
Qed.

Lemma effect_Ret h w v :
  inherited (UseCookie.hook_name h) = false ->
  Cookies.get (UseCookie.hook_name h) (UseCookie.hook_default h) w = Ret v w ->
  UseCookie.effect h w
  = Ret (v, mkUnsubscriber (UseCookie.hook_name h) (UseCookie.hook_listener h))
        (Cookies.registry_put (UseCookie.hook_name h)
           (callbacks (UseCookie.hook_name h) w ++ [UseCookie.hook_listener h])
           (started w)).
Proof.
  intros Hn Hg. unfold UseCookie.effect, bind, ret. rewrite Hg.
  now rewrite (subscribe_plain _ _ w Hn).
Qed.

(** The state cell after the calls of one intercepted write. *)
Lemma result_calls listener current newValue oldValue (fs : list CookieSubscriber) :
  UseCookie.result listener current (List.map (fun f => EvCall f newValue oldValue) fs)
  = if decide (listener ∈ fs) then newValue else current.
Proof.
  revert current. induction fs as [|f fs IH]; intros current; simpl.
  - destruct (decide (listener ∈ [])) as [H|_]; [|reflexivity].
    now apply elem_of_nil in H.
  - rewrite IH.
    destruct (decide (listener ∈ fs)) as [Hin|Hout].
    + destruct (decide (listener ∈ f :: fs)) as [_|H]; [reflexivity|].
      destruct H. now right.
    + destruct (decide (f = listener)) as [->|Hne].
      * destruct (decide (listener ∈ listener :: fs)) as [_|H]; [reflexivity|].
        destruct H. now left.
      * destruct (decide (listener ∈ f :: fs)) as [H|_]; [|reflexivity].
        apply elem_of_cons in H. destruct H as [->|H]; [congruence | contradiction].
Qed.

Lemma result_intercepted listener current value oldValue newValue w :
  UseCookie.result listener current
    (EvSetCookie value
      :: (if debug w
          then [EvLog (LogWrite (name_of value) (JSON_stringify oldValue)
                                (JSON_stringify newValue))]
          else [])
      ++ List.map (fun f => EvCall f newValue oldValue) (callbacks (name_of value) w))%list
  = if decide (listener ∈ callbacks (name_of value) w) then newValue else current.
Proof. simpl. destruct (debug w); simpl; apply result_calls. Qed.

End hook_facts.

(** X17.  The effect of the hook reads the cookie before it subscribes.
    When the stored value is "json:" followed by text that [JSON.parse]
    rejects, the effect raises the [SyntaxError] and leaves the page as it
    was: nothing is subscribed and nothing installed.  When the read
    succeeds (the name not being one of [Object.prototype]'s), the effect
    hands the value read to [setResult], puts the listener last in the
    entry of the name and touches no cookie. *)
Theorem effect_reads_then_subscribes {P : Platform} (h : UseCookie.Hook) (w : World) :
  inherited (UseCookie.hook_name h) = false ->
  (forall rest,
     codec_get (UseCookie.hook_name h) (jar w) = Some ("json:" +:+ rest) ->
     JSON_parse rest = None ->
     UseCookie.effect h w = Throw SyntaxError w)
  /\ (forall v,
        Cookies.get (UseCookie.hook_name h) (UseCookie.hook_default h) w = Ret v w ->
        exists w',
          UseCookie.effect h w
          = Ret (v, mkUnsubscriber (UseCookie.hook_name h) (UseCookie.hook_listener h)) w'
          /\ callbacks (UseCookie.hook_name h) w'
             = (callbacks (UseCookie.hook_name h) w ++ [UseCookie.hook_listener h])%list
          /\ jar w' = jar w).
Proof.
  intros Hn. split.
  - intros rest Hc Hp. unfold UseCookie.effect, bind.
    rewrite (get_prefixed _ _ w rest Hc). now rewrite Hp.
  - intros v Hg. eexists. split; [now apply effect_Ret|].
    split; [apply callbacks_put | apply jar_started].
Qed.

(** X18.  The setter of the hook only writes the cookie; the state cell
    changes through the listener alone.  So on a page that cannot
    intercept (cookies disabled, or the accessor not configurable) the
    setter returns, the cookie is written and the state cell of every
    hook stays what it was. *)
Theorem hook_setter_alone_does_not_update {P : Platform} (ops : list Op) (j : Jar)
    (enabled conf : bool) (h : UseCookie.Hook) (newValue current : Value) :
  enabled = false \/ conf = false ->
  let w := run ops (init j enabled conf) in
  exists w', UseCookie.setter h newValue w = Ret tt w'
    /\ jar w' = native_set (wire_of (UseCookie.hook_name h) newValue
                                    (UseCookie.hook_options h)) (jar w)
    /\ forall listener, UseCookie.result listener current (since w w') = current.
Proof.
  intros Henv w.
  assert (Hd : degraded w) by (apply degraded_run, degraded_init, Henv).
  destruct Hd as (_ & _ & Hi & _).
  eexists. split; [unfold UseCookie.setter; now apply set_native|].
  split; [reflexivity|].
  intros listener. rewrite (since_more w _ [EvSetCookie _]) by reflexivity. reflexivity.
Qed.

(** X19.  On a page that intercepts, the setter of a hook whose listener
    is registered makes the state cell the value read back after the
    write, provided the string the codec writes carries the name before
    its first "=" (the name not being one of [Object.prototype]'s) and
    both reads of the interceptor succeed. *)
Theorem hook_setter_updates_through_interceptor {P : Platform} (h : UseCookie.Hook)
    (v oldValue newValue current : Value) (w : World) :
  let name := UseCookie.hook_name h in
  let wire := wire_of name v (UseCookie.hook_options h) in
  installed w = true ->
  UseCookie.hook_listener h ∈ callbacks name w ->
  JS.includes wire "=" = true ->
  name_of wire = name ->
  inherited name = false ->
  Cookies.get name VNull w = Ret oldValue w ->
  Cookies.get name VNull (written wire w) = Ret newValue (written wire w) ->
  exists w', UseCookie.setter h v w = Ret tt w'
    /\ UseCookie.result (UseCookie.hook_listener h) current (since w w') = newValue.
Proof.
  intros name wire Hi Hl Hin Hname Hn Hold Hnew.
  pose proof (assign_announced wire oldValue newValue w Hi Hin) as H.
  pose proof (result_intercepted (UseCookie.hook_listener h) current wire
                oldValue newValue w) as Hres.
  rewrite Hname in H, Hres.
  destruct (H Hold Hnew Hn) as (w' & Hset & _ & Hsince).
  exists w'. split.
  - unfold UseCookie.setter. fold name. rewrite set_assigns. exact Hset.
  - rewrite Hsince, Hres. now destruct (decide (UseCookie.hook_listener h ∈ callbacks name w)).
Qed.

(** X20.  Two hooks on the same cookie: when the cleanup of the one whose
    effect ran first is called, the listener of the other is removed from
    the registry with it, so the second hook no longer hears of writes. *)
Theorem cleanup_of_first_hook_silences_second {P : Platform} (h1 h2 : UseCookie.Hook)
    (v1 v2 : Value) (u1 u2 : CookieUnsubscriber) (w w1 w2 : World) :
  let name := UseCookie.hook_name h1 in
  UseCookie.hook_name h2 = name ->
  UseCookie.hook_listener h1 ∉ callbacks name w ->
  UseCookie.effect h1 w = Ret (v1, u1) w1 ->
  UseCookie.effect h2 w1 = Ret (v2, u2) w2 ->
  callbacks name w2
  = (callbacks name w ++ [UseCookie.hook_listener h1; UseCookie.hook_listener h2])%list
  /\ exists w3, UseCookie.cleanup u1 w2 = Ret tt w3
       /\ callbacks name w3 = callbacks name w.
Proof.
  intros name Hsame Hfresh He1 He2.
  apply effect_Ret_inv in He1. destruct He1 as [_ Hs1].
  apply effect_Ret_inv in He2. destruct He2 as [_ Hs2].
  rewrite Hsame in Hs2. fold name in Hs1.
  apply subscribe_Ret_inv in Hs1. destruct Hs1 as [-> ->].
  apply subscribe_Ret_inv in Hs2. destruct Hs2 as [-> ->].
  rewrite !callbacks_put. rewrite <- app_assoc. simpl.
  split; [reflexivity|].
  eexists. split.
  - unfold UseCookie.cleanup.
    apply (unsubscribe_present name (UseCookie.hook_listener h1) _
             (callbacks name w) [UseCookie.hook_listener h2] Hfresh).
    unfold Cookies.registry_put. simpl. now rewrite lookup_insert_eq.
  - apply callbacks_put.
Qed.

(** ** What [set] and a whole run never do *)

Section never_facts.
Context {P : Platform}.
Implicit Types (w : World) (name value : string) (f : CookieSubscriber).

Lemma writes_of_intercepted value oldValue newValue w :
  List.filter is_write
    (EvSetCookie value
      :: (if debug w
          then [EvLog (LogWrite (name_of value) (JSON_stringify oldValue)
                                (JSON_stringify newValue))]
          else [])
      ++ List.map (fun f => EvCall f newValue oldValue) (callbacks (name_of value) w))%list
  = [EvSetCookie value].
Proof.
  simpl. f_equal. rewrite List.filter_app.
  replace (List.filter is_write
             (if debug w
              then [EvLog (LogWrite (name_of value) (JSON_stringify oldValue)
                                    (JSON_stringify newValue))]
              else [])) with (@nil Event) by now destruct (debug w).
  simpl. induction (callbacks (name_of value) w) as [|g a IH]; simpl; [reflexivity | exact IH].
Qed.

(** What an assignment to [document.cookie] can have done, whatever its
    outcome: nothing at all, or one write and what follows it. *)
Lemma assign_effect value w :
  let w' := world_of (Cookies.document_cookie_assign value w) in
  subscribers w' = subscribers w /\ debug w' = debug w
  /\ ((w' = w /\ since w w' = [])
      \/ (jar w' = native_set value (jar w)
          /\ exists evs, trace w' = (trace w ++ evs)%list
                         /\ List.filter is_write evs = [EvSetCookie value])).
Proof.
  intros w'. subst w'. split; [apply subscribers_assign|].
  assert (Hw : debug (written value w) = debug w
               /\ jar (written value w) = native_set value (jar w)
               /\ trace (written value w) = (trace w ++ [EvSetCookie value])%list)
    by now repeat split.
  destruct (installed w) eqn:Hi.
  2:{ rewrite assign_native by exact Hi. simpl. split; [reflexivity|]. right.
      split; [reflexivity|]. now exists [EvSetCookie value]. }
  rewrite assign_intercepted by exact Hi.
  destruct (setter_cases value w)
    as [[Hin E]|[(Hin & e & _ & E)|[(Hin & o & e & _ & _ & E)|(Hin & o & n & Ho & Hn & _)]]].
  - rewrite E. simpl. split; [reflexivity|]. right.
    split; [reflexivity|]. now exists [EvSetCookie value].
  - rewrite E. simpl. split; [reflexivity|]. left. split; [reflexivity|].
    apply since_more. now rewrite app_nil_r.
  - rewrite E. simpl. split; [reflexivity|]. right.
    split; [reflexivity|]. now exists [EvSetCookie value].
  - rewrite (setter_world value w o n Hin Ho Hn). split.
    + unfold dispatched, logged. now destruct (debug (written value w)).
    + right. split.
      * unfold dispatched, logged. now destruct (debug (written value w)).
      * eexists. split; [apply trace_intercepted | apply writes_of_intercepted].
Qed.

(** *** Only subscribed callbacks are registered or called *)

Lemma call_in_trace f newValue oldValue w :
  In (EvCall f newValue oldValue) (trace w)
  <-> In (EvCall f newValue oldValue) (notifications w).
Proof.
  unfold notifications. rewrite List.filter_In. simpl. tauto.
Qed.

Lemma setter_trace value w :
  trace (world_of (Cookies.setter value w))
  = (trace w ++ since w (world_of (Cookies.setter value w)))%list.
Proof.
  destruct (setter_cases value w)
    as [[Hin E]|[(Hin & e & _ & E)|[(Hin & o & e & _ & _ & E)|(Hin & o & n & Ho & Hn & _)]]].
  - rewrite E. simpl.
    now rewrite (since_more w (written value w) [EvSetCookie value]).
  - rewrite E. simpl. rewrite (since_more w w []); now rewrite app_nil_r.
  - rewrite E. simpl.
    now rewrite (since_more w (written value w) [EvSetCookie value]).
  - rewrite (setter_world value w o n Hin Ho Hn).
    rewrite (since_more _ _ _ (trace_intercepted value o n w)).
    apply trace_intercepted.
Qed.

Lemma assign_call value w f newValue oldValue :
  In (EvCall f newValue oldValue) (trace (world_of (Cookies.document_cookie_assign value w))) ->
  In (EvCall f newValue oldValue) (trace w) \/ f ∈ callbacks (name_of value) w.
Proof.
  destruct (installed w) eqn:Hi.
  - rewrite assign_intercepted by exact Hi. rewrite setter_trace.
    intros H. apply in_app_or in H. destruct H as [H|H]; [now left|].
    right. now apply setter_call_inv in H.
  - rewrite assign_native by exact Hi. simpl.
    intros H. apply in_app_or in H. destruct H as [H|[H|[]]]; [now left | discriminate].
Qed.

Lemma only_subscribed_more done op w :
  only_subscribed done w -> only_subscribed (done ++ [op]) w.
Proof.
  intros [H1 H2]. split.
  - intros name f Hf. apply in_or_app. left. now apply H1.
  - intros f n o Hc. destruct (H2 f n o Hc) as [name Hn].
    exists name. apply in_or_app. now left.
Qed.

Lemma only_subscribed_same done w w' :
  subscribers w' = subscribers w ->
  (forall f n o, In (EvCall f n o) (trace w') ->
     In (EvCall f n o) (trace w) \/ exists name, f ∈ callbacks name w) ->
  only_subscribed done w -> only_subscribed done w'.
Proof.
  intros Hs Ht [H1 H2]. split.
  - intros name f. unfold callbacks. rewrite Hs. apply H1.
  - intros f n o Hc. destruct (Ht f n o Hc) as [H|[name H]]; [now apply (H2 f n o)|].
    exists name. now apply H1.
Qed.

Lemma only_subscribed_started done w :
  only_subscribed done w -> only_subscribed done (started w).
Proof.
  apply only_subscribed_same; [apply subscribers_started|].
  intros f n o H. left. apply call_in_trace. rewrite <- notifications_started.
  now apply call_in_trace.
Qed.

Lemma only_subscribed_step done w op :
  only_subscribed done w -> only_subscribed (done ++ [op]) (step w op).
Proof.
  intros Hw. destruct op as [name f|[name f]|name d|name v o|value|b]; simpl.
  - rewrite subscribe_started.
    pose proof (only_subscribed_started done w Hw) as [H1 H2].
    destruct (Cookies.registry_get name (started w)) eqn:Hslot; simpl.
    3:{ apply only_subscribed_more. now split. }
    all: split.
    all: try (intros g n o Hc; destruct (H2 g n o Hc) as [nm Hn];
              exists nm; apply in_or_app; now left).
    all: intros nm g Hg; apply in_or_app.
    all: destruct (decide (nm = name)) as [->|Hne].
    all: try (left; apply H1; unfold callbacks in *;
              now rewrite subscribers_put_other in Hg by exact Hne).
    all: rewrite callbacks_put in Hg; apply elem_of_app in Hg;
      destruct Hg as [Hg|Hg]; [left; now apply H1|].
    all: apply elem_of_cons in Hg; destruct Hg as [->|Hg];
      [right; now left | now apply elem_of_nil in Hg].
  - apply only_subscribed_more.
    destruct (subscribers w !! name) as [a|] eqn:Ha.
    + rewrite (unsubscribe_own name f w a Ha). simpl.
      destruct Hw as [H1 H2]. split; [|exact H2].
      intros nm g Hg. apply H1.
      destruct (decide (nm = name)) as [->|Hne].
      * rewrite callbacks_put in Hg. unfold callbacks. rewrite Ha.
        unfold JS.Array_splice in Hg. simpl in Hg.
        rewrite <- (take_drop (JS.relative (List.length a) (JS.Array_indexOf a f)) a).
        apply elem_of_app. now left.
      * unfold callbacks in *. now rewrite subscribers_put_other in Hg by exact Hne.
    + now rewrite (unsubscribe_none name f w Ha).
  - apply only_subscribed_more. now rewrite get_world.
  - apply only_subscribed_more. rewrite set_assigns.
    apply (only_subscribed_same done w); [apply subscribers_assign | | exact Hw].
    intros f n o' Hc. apply assign_call in Hc. destruct Hc as [Hc|Hc]; [now left|].
    right. eauto.
  - apply only_subscribed_more.
    apply (only_subscribed_same done w); [apply subscribers_assign | | exact Hw].
    intros f n o' Hc. apply assign_call in Hc. destruct Hc as [Hc|Hc]; [now left|].
    right. eauto.
  - apply only_subscribed_more. exact Hw.
Qed.

Lemma only_subscribed_run done ops w :
  only_subscribed done w -> only_subscribed (done ++ ops) (run ops w).
Proof.
  revert done w. induction ops as [|op ops IH]; intros done w Hw; simpl.
  - now rewrite app_nil_r.
  - replace (done ++ op :: ops)%list with ((done ++ [op]) ++ ops)%list
      by now rewrite <- app_assoc.
    apply IH. now apply only_subscribed_step.
Qed.

End never_facts.

(** X21.  [set] changes nothing but the cookies and the trace, whatever
    its outcome: the registry and [Cookies.debug] are as they were, and
    either nothing happened at all (the page is the same) or the original
    setter ran exactly once, on the string the codec produced. *)
Theorem set_writes_at_most_once {P : Platform} (name : string) (v : Value)
    (o : CookieOptions) (w : World) :
  let w' := world_of (Cookies.set name v o w) in
  subscribers w' = subscribers w /\ debug w' = debug w
  /\ ((w' = w /\ since w w' = [])
      \/ (jar w' = native_set (wire_of name v o) (jar w)
          /\ exists evs, trace w' = (trace w ++ evs)%list
                         /\ List.filter is_write evs = [EvSetCookie (wire_of name v o)])).
Proof. rewrite set_assigns. apply assign_effect. Qed.

(** X22.  Along every run, a callback that is in the entry of a name has
    been subscribed to that name, and a callback that was called has been
    subscribed: the broker never calls a function nobody subscribed. *)
Theorem only_subscribed_callbacks_are_called {P : Platform} (ops : list Op) (j : Jar)
    (enabled conf : bool) :
  let w := run ops (init j enabled conf) in
  (forall name f, f ∈ callbacks name w -> In (OpSubscribe name f) ops)
  /\ (forall f newValue oldValue,
        In (EvCall f newValue oldValue) (trace w) ->
        exists name, In (OpSubscribe name f) ops).
Proof.
  apply (only_subscribed_run [] ops (init j enabled conf)).
  split.
  - intros name f Hf. unfold callbacks in Hf. simpl in Hf.
    rewrite lookup_empty in Hf. now apply elem_of_nil in Hf.
  - intros f n o [].
Qed.

(** X23.  While the interceptor is installed, a write to a name for which
    the codec's result is not a string raises a [TypeError] when the old
    value is read, before the original setter is called, and leaves the
    page as it was.  With js-cookie these are the property names of
    [Object.prototype]: once someone has subscribed, a cookie of such a
    name can no longer be written through [document.cookie] or [set]. *)
Theorem member_name_blocks_writes {P : Platform} (name : string) (w : World) :
  installed w = true ->
  codec_get name (jar w) = Some FoundMember ->
  (forall value, JS.includes value "=" = true -> name_of value = name ->
     Cookies.document_cookie_assign value w = Throw TypeError w)
  /\ (forall key v o,
        JS.includes (wire_of key v o) "=" = true -> name_of (wire_of key v o) = name ->
        Cookies.set key v o w = Throw TypeError w).
Proof.
  intros Hi Hc.
  assert (H : forall value, JS.includes value "=" = true -> name_of value = name ->
                Cookies.document_cookie_assign value w = Throw TypeError w).
  { intros value Hin Hname. rewrite assign_intercepted by exact Hi.
    apply setter_old_unreadable; [exact Hin|]. rewrite Hname.
    apply get_member, Hc. }
  split; [exact H|].
  intros key v o Hin Hname. rewrite set_assigns. now apply H.
Qed.

(** * More runs on the reference platform *)

Section more_reference_runs.
Local Existing Instance Ref.platform.

Lemma subscribe_appends_witness :
  exists w', Cookies.subscribe "theme" 1%nat (Ref.page true true)
             = Ret (mkUnsubscriber "theme" 1%nat) w'
    /\ subscribers w' !! "theme" = Some [1%nat]
    /\ subscribers w' !! "lang" = None.
Proof.
  assert (Hn : inherited "theme" = false) by (vm_compute; reflexivity).
  destruct (subscribe_appends (P := Ref.platform) "theme" 1%nat (Ref.page true true) Hn)
    as (w' & Hs & He & Ho & _).
  exists w'. split; [exact Hs|]. split.
  - etransitivity; [exact He | vm_compute; reflexivity].
  - assert (Hne : "lang" <> "theme") by discriminate.
    etransitivity; [exact (Ho "lang" Hne) | vm_compute; reflexivity].
Defined.

Lemma subscriptions_in_order_witness :
  callbacks "theme" (run (List.map (OpSubscribe "theme") [1; 2; 1]%nat) (Ref.page true true))
  = [1; 2; 1]%nat.
Proof.
  assert (Hn : inherited "theme" = false) by (vm_compute; reflexivity).
  rewrite (subscriptions_in_order (P := Ref.platform) "theme" [1; 2; 1]%nat
             (Ref.page true true) Hn).
  reflexivity.
Defined.

Lemma subscribe_inherited_name_raises_witness :
  let w := run [OpSet "a" (VStr "x") no_options] (Ref.page true true) in
  exists w', Cookies.subscribe "toString" 1%nat w = Throw TypeError w'
    /\ subscribers w' = subscribers w
    /\ isIntercepting w' = true.
Proof.
  intros w.
  assert (Hn : inherited "toString" = true) by (vm_compute; reflexivity).
  destruct (subscribe_inherited_name_raises (P := Ref.platform)
              [OpSet "a" (VStr "x") no_options] ∅ true true "toString" 1%nat Hn)
    as (w' & Hs & Hr & _ & Hf).
  exists w'. split; [exact Hs|]. split; [exact Hr | exact (Hf eq_refl eq_refl)].
Defined.

Lemma unsubscribe_cuts_entry_witness :
  let w := run (List.map (OpSubscribe "theme") [1; 2; 3]%nat) (Ref.page true true) in
  exists w', Cookies.unsubscribe (mkUnsubscriber "theme" 2%nat) w = Ret tt w'
    /\ subscribers w' !! "theme" = Some [1%nat].
Proof.
  intros w.
  assert (Hf : 2%nat ∉ [1%nat]).
  { intros H. apply elem_of_cons in H. destruct H as [H|H]; [discriminate|].
    now apply elem_of_nil in H. }
  assert (Ha : subscribers w !! "theme" = Some ([1%nat] ++ 2%nat :: [3%nat])%list)
    by (vm_compute; reflexivity).
  destruct (unsubscribe_cuts_entry (P := Ref.platform) "theme" 2%nat [1%nat] [3%nat] w Hf Ha)
    as (w' & Hu & He & _).
  exists w'. split; [exact Hu | exact He].
Defined.

Lemma unsubscribe_again_removes_last_witness :
  let w := run (List.map (OpSubscribe "theme") [1; 3]%nat) (Ref.page true true) in
  exists w', Cookies.unsubscribe (mkUnsubscriber "theme" 2%nat) w = Ret tt w'
    /\ subscribers w' !! "theme" = Some [1%nat].
Proof.
  intros w.
  assert (Hf : 2%nat ∉ [1; 3]%nat).
  { intros H. apply elem_of_cons in H. destruct H as [H|H]; [discriminate|].
    apply elem_of_cons in H. destruct H as [H|H]; [discriminate|].
    now apply elem_of_nil in H. }
  assert (Ha : subscribers w !! "theme" = Some [1; 3]%nat) by (vm_compute; reflexivity).
  destruct (unsubscribe_again_removes_last (P := Ref.platform) "theme" 2%nat [1; 3]%nat w Hf Ha)
    as (w' & Hu & _ & He).
  exists w'. split; [exact Hu | exact (He [1%nat] 3%nat eq_refl)].
Defined.

Lemma subscribe_then_unsubscribe_witness :
  let w := run [OpSubscribe "theme" 1%nat] (Ref.page true true) in
  exists w', (u <- Cookies.subscribe "theme" 2%nat ;; Cookies.unsubscribe u)%js w = Ret tt w'
    /\ callbacks "theme" w' = [1%nat].
Proof.
  intros w.
  assert (Hn : inherited "theme" = false) by (vm_compute; reflexivity).
  assert (Hcb : callbacks "theme" w = [1%nat]) by (vm_compute; reflexivity).
  assert (Hf : 2%nat ∉ callbacks "theme" w).
  { rewrite Hcb. intros H. apply elem_of_cons in H. destruct H as [H|H]; [discriminate|].
    now apply elem_of_nil in H. }
  destruct (subscribe_then_unsubscribe (P := Ref.platform) "theme" 2%nat w Hn Hf)
    as (w' & Hu & He & _).
  exists w'. split; [exact Hu|]. now rewrite He.
Defined.

Lemma closure_never_raises_witness :
  let w := Ref.page true true in
  let w1 := Cookies.registry_put "theme" (callbacks "theme" w ++ [1%nat]) (started w) in
  exists w3,
    Cookies.unsubscribe (mkUnsubscriber "theme" 1%nat)
      (run [OpAssign "theme=dark"; OpSubscribe "lang" 2%nat] w1) = Ret tt w3.
Proof.
  intros w w1.
  assert (Hn : inherited "theme" = false) by (vm_compute; reflexivity).
  assert (Hs : Cookies.subscribe "theme" 1%nat w = Ret (mkUnsubscriber "theme" 1%nat) w1)
    by (apply subscribe_plain; exact Hn).
  destruct (closure_never_raises (P := Ref.platform) "theme" 1%nat w w1 _
              [OpAssign "theme=dark"; OpSubscribe "lang" 2%nat] Hs) as (w3 & Hu & _).
  exists w3. exact Hu.
Defined.

Lemma unsubscribed_callback_not_called_witness :
  let w := run (List.map (OpSubscribe "theme") [1; 2]%nat) (Ref.page true true) in
  exists w', Cookies.unsubscribe (mkUnsubscriber "theme" 2%nat) w = Ret tt w'
    /\ ~ In (EvCall 2%nat (VStr "dark") VNull)
            (since w' (world_of (Cookies.setter "theme=dark" w'))).
Proof.
  intros w.
  assert (Ha : subscribers w !! "theme" = Some [1; 2]%nat) by (vm_compute; reflexivity).
  assert (Hin : 2%nat ∈ [1; 2]%nat).
  { apply elem_of_cons. right. apply elem_of_cons. now left. }
  destruct (unsubscribed_callback_not_called (P := Ref.platform) "theme" 2%nat
              [1; 2]%nat w Ha Hin) as (w' & Hu & _ & Hnot).
  exists w'. split; [exact Hu|]. apply Hnot. reflexivity.
Defined.

Lemma setter_calls_only_registered_witness :
  let w := run [OpSubscribe "theme" 1%nat; OpSubscribe "lang" 2%nat] (Ref.page true true) in
  1%nat ∈ callbacks (name_of "theme=dark") w
  /\ Cookies.get (name_of "theme=dark") VNull w = Ret VNull w.
Proof.
  intros w.
  assert (Hin : In (EvCall 1%nat (VStr "dark") VNull)
                   (since w (world_of (Cookies.setter "theme=dark" w))))
    by (vm_compute; right; right; left; reflexivity).
  destruct (setter_calls_only_registered (P := Ref.platform) "theme=dark" w) as [_ H].
  destruct (H 1%nat (VStr "dark") VNull Hin) as (Hf & Ho & _).
  split; [exact Hf | exact Ho].
Defined.

Lemma corrupt_cookie_blocks_writes_witness :
  let w := run [OpSet "a" (VStr "json:{") no_options; OpSubscribe "a" 1%nat]
               (Ref.page true true) in
  Cookies.set "a" (VStr "fixed") no_options w = Throw SyntaxError w
  /\ Cookies.set "a" VUndefined no_options w = Throw SyntaxError w.
Proof.
  intros w.
  assert (Hi : installed w = true) by (vm_compute; reflexivity).
  assert (Hc : codec_get "a" (jar w) = Some ("json:" +:+ "{")) by (vm_compute; reflexivity).
  assert (Hp : JSON_parse "{" = None) by (vm_compute; reflexivity).
  destruct (corrupt_cookie_blocks_writes (P := Ref.platform) "a" "{" w Hi Hc Hp) as [_ H].
  split; apply H; vm_compute; reflexivity.
Defined.

Lemma corrupt_write_is_not_announced_witness :
  let w := run [OpSubscribe "a" 1%nat] (Ref.page true true) in
  exists w', Cookies.setter "a=json:{" w = Throw SyntaxError w'
    /\ codec_get "a" (jar w') = Some "json:{"
    /\ since w w' = [EvSetCookie "a=json:{"].
Proof.
  intros w.
  assert (Hin : JS.includes "a=json:{" "=" = true) by reflexivity.
  assert (Hold : Cookies.get (name_of "a=json:{") VNull w = Ret VNull w)
    by (apply get_absent; vm_compute; reflexivity).
  assert (Hc : codec_get (name_of "a=json:{") (native_set "a=json:{" (jar w))
               = Some ("json:" +:+ "{")) by (vm_compute; reflexivity).
  assert (Hp : JSON_parse "{" = None) by (vm_compute; reflexivity).
  destruct (corrupt_write_is_not_announced (P := Ref.platform) "a=json:{" "{" VNull w
              Hin Hold Hc Hp) as (w' & Hs & Hj & Hsince & _).
  exists w'. split; [exact Hs|]. split; [rewrite Hj; exact Hc | exact Hsince].
Defined.

Lemma set_calls_subscribers_witness :
  let w := run [OpSubscribe "age" 1%nat; OpSubscribe "age" 2%nat] (Ref.page true true) in
  exists w', Cookies.set "age" (VNum 20) no_options w = Ret tt w'
    /\ List.filter is_call (since w w')
       = [EvCall 1%nat (VNum 20) VNull; EvCall 2%nat (VNum 20) VNull].
Proof.
  intros w.
  assert (Hi : installed w = true) by (vm_compute; reflexivity).
  assert (Hin : JS.includes (wire_of "age" (VNum 20) no_options) "=" = true)
    by (vm_compute; reflexivity).
  assert (Hname : name_of (wire_of "age" (VNum 20) no_options) = "age")
    by (vm_compute; reflexivity).
  assert (Hn : inherited "age" = false) by (vm_compute; reflexivity).
  assert (Hold : Cookies.get "age" VNull w = Ret VNull w)
    by (apply get_absent; vm_compute; reflexivity).
  assert (Hnew : Cookies.get "age" VNull (written (wire_of "age" (VNum 20) no_options) w)
                 = Ret (VNum 20) (written (wire_of "age" (VNum 20) no_options) w))
    by (apply get_structured with "json:20"; vm_compute; reflexivity).
  destruct (set_calls_subscribers (P := Ref.platform) "age" (VNum 20) no_options VNull
              (VNum 20) w Hi Hin Hname Hn Hold Hnew) as (w' & Hs & _ & Hc).
  exists w'. split; [exact Hs|]. rewrite Hc. vm_compute. reflexivity.
Defined.

Lemma delete_calls_subscribers_with_null_witness :
  let w := run [OpSet "lang" (VStr "en") no_options; OpSubscribe "lang" 1%nat]
               (Ref.page true true) in
  exists w', Cookies.set "lang" VUndefined no_options w = Ret tt w'
    /\ List.filter is_call (since w w') = [EvCall 1%nat VNull (VStr "en")]
    /\ Cookies.get "lang" (VStr "fr") w' = Ret (VStr "fr") w'.
Proof.
  intros w.
  assert (Hi : installed w = true) by (vm_compute; reflexivity).
  assert (Hin : JS.includes (wire_remove "lang" no_options) "=" = true)
    by (vm_compute; reflexivity).
  assert (Hname : name_of (wire_remove "lang" no_options) = "lang")
    by (vm_compute; reflexivity).
  assert (Hn : inherited "lang" = false) by (vm_compute; reflexivity).
  assert (Hold : Cookies.get "lang" VNull w = Ret (VStr "en") w)
    by (apply get_plain; vm_compute; reflexivity).
  assert (Hgone : codec_get "lang" (native_set (wire_remove "lang" no_options) (jar w)) = None)
    by (vm_compute; reflexivity).
  destruct (delete_calls_subscribers_with_null (P := Ref.platform) "lang" no_options
              (VStr "en") w Hi Hin Hname Hn Hold Hgone) as (w' & Hs & Hc & Hg).
  exists w'. split; [exact Hs|]. split; [|exact (Hg (VStr "fr"))].
  rewrite Hc. vm_compute. reflexivity.
Defined.

Lemma blocked_installation_is_retried_witness :
  blocked_lines (run [OpSubscribe "a" 1%nat; OpSet "a" (VStr "x") no_options;
                      OpSubscribe "b" 2%nat] (Ref.page true false)) = 2%nat
  /\ blocked_lines (run [OpSubscribe "a" 1%nat; OpSubscribe "b" 2%nat] (Ref.page false true))
     = 0%nat.
Proof.
  split.
  - exact (blocked_installation_is_retried (P := Ref.platform)
             [OpSubscribe "a" 1%nat; OpSet "a" (VStr "x") no_options; OpSubscribe "b" 2%nat]
             ∅ true false (or_intror eq_refl)).
  - exact (blocked_installation_is_retried (P := Ref.platform)
             [OpSubscribe "a" 1%nat; OpSubscribe "b" 2%nat]
             ∅ false true (or_introl eq_refl)).
Defined.

Lemma nothing_installed_without_subscribe_witness :
  let w := run [OpSet "a" (VStr "x") no_options; OpAssign "b=1"; OpGet "a" VNull;
                OpUnsubscribe (mkUnsubscriber "a" 1%nat)] (Ref.page true true) in
  installed w = false /\ subscribers w = ∅.
Proof.
  intros w.
  destruct (nothing_installed_without_subscribe (P := Ref.platform)
              [OpSet "a" (VStr "x") no_options; OpAssign "b=1"; OpGet "a" VNull;
               OpUnsubscribe (mkUnsubscriber "a" 1%nat)] ∅ true true eq_refl)
    as (Hi & _ & Hs & _).
  split; [exact Hi | exact Hs].
Defined.

Lemma effect_reads_then_subscribes_witness :
  let h := UseCookie.mkHook "theme" (VStr "light") no_options 7%nat in
  UseCookie.effect h (written "theme=json:{" (Ref.page true true))
  = Throw SyntaxError (written "theme=json:{" (Ref.page true true))
  /\ exists w', UseCookie.effect h (Ref.page true true)
                = Ret (VStr "light", mkUnsubscriber "theme" 7%nat) w'
       /\ callbacks "theme" w' = [7%nat].
Proof.
  intros h.
  assert (Hn : inherited (UseCookie.hook_name h) = false) by (vm_compute; reflexivity).
  destruct (effect_reads_then_subscribes (P := Ref.platform) h
              (written "theme=json:{" (Ref.page true true)) Hn) as [Hbad _].
  destruct (effect_reads_then_subscribes (P := Ref.platform) h (Ref.page true true) Hn)
    as [_ Hgood].
  split.
  - apply (Hbad "{"); vm_compute; reflexivity.
  - assert (Hg : Cookies.get (UseCookie.hook_name h) (UseCookie.hook_default h)
                   (Ref.page true true) = Ret (VStr "light") (Ref.page true true))
      by (apply get_absent; vm_compute; reflexivity).
    destruct (Hgood (VStr "light") Hg) as (w' & He & Hcb & _).
    exists w'. split; [exact He|].
    etransitivity; [exact Hcb | vm_compute; reflexivity].
Defined.

Lemma hook_setter_alone_does_not_update_witness :
  let h := UseCookie.mkHook "theme" (VStr "light") no_options 7%nat in
  let w := run [OpSubscribe "theme" 7%nat] (Ref.page true false) in
  exists w', UseCookie.setter h (VStr "dark") w = Ret tt w'
    /\ codec_get "theme" (jar w') = Some "dark"
    /\ UseCookie.result 7%nat (VStr "light") (since w w') = VStr "light".
Proof.
  intros h w.
  destruct (hook_setter_alone_does_not_update (P := Ref.platform)
              [OpSubscribe "theme" 7%nat] ∅ true false h (VStr "dark") (VStr "light")
              (or_intror eq_refl)) as (w' & Hs & Hj & Hr).
  exists w'. split; [exact Hs|]. split; [|exact (Hr 7%nat)].
  etransitivity; [exact (f_equal (codec_get "theme") Hj) | vm_compute; reflexivity].
Defined.

Lemma hook_setter_updates_through_interceptor_witness :
  let h := UseCookie.mkHook "theme" (VStr "light") no_options 7%nat in
  let w := run [OpSubscribe "theme" 7%nat] (Ref.page true true) in
  exists w', UseCookie.setter h (VStr "dark") w = Ret tt w'
    /\ UseCookie.result 7%nat (VStr "light") (since w w') = VStr "dark".
Proof.
  intros h w.
  assert (Hi : installed w = true) by (vm_compute; reflexivity).
  assert (Hcb : callbacks "theme" w = [7%nat]) by (vm_compute; reflexivity).
  assert (Hl : UseCookie.hook_listener h ∈ callbacks (UseCookie.hook_name h) w).
  { change (7%nat ∈ callbacks "theme" w). rewrite Hcb. apply elem_of_cons. now left. }
  assert (Hin : JS.includes (wire_of (UseCookie.hook_name h) (VStr "dark")
                               (UseCookie.hook_options h)) "=" = true)
    by (vm_compute; reflexivity).
  assert (Hname : name_of (wire_of (UseCookie.hook_name h) (VStr "dark")
                             (UseCookie.hook_options h)) = UseCookie.hook_name h)
    by (vm_compute; reflexivity).
  assert (Hn : inherited (UseCookie.hook_name h) = false) by (vm_compute; reflexivity).
  assert (Hold : Cookies.get (UseCookie.hook_name h) VNull w = Ret VNull w)
    by (apply get_absent; vm_compute; reflexivity).
  assert (Hnew : Cookies.get (UseCookie.hook_name h) VNull
                   (written (wire_of (UseCookie.hook_name h) (VStr "dark")
                               (UseCookie.hook_options h)) w)
                 = Ret (VStr "dark")
                     (written (wire_of (UseCookie.hook_name h) (VStr "dark")
                                 (UseCookie.hook_options h)) w))
    by (apply get_plain; vm_compute; reflexivity).
  exact (hook_setter_updates_through_interceptor (P := Ref.platform) h (VStr "dark")
           VNull (VStr "dark") (VStr "light") w Hi Hl Hin Hname Hn Hold Hnew).
Defined.

Lemma cleanup_of_first_hook_silences_second_witness :
  let h1 := UseCookie.mkHook "theme" (VStr "light") no_options 1%nat in
  let h2 := UseCookie.mkHook "theme" (VStr "light") no_options 2%nat in
  let w := Ref.page true true in
  let w1 := Cookies.registry_put "theme" (callbacks "theme" w ++ [1%nat]) (started w) in
  let w2 := Cookies.registry_put "theme" (callbacks "theme" w1 ++ [2%nat]) (started w1) in
  callbacks "theme" w2 = [1; 2]%nat
  /\ exists w3, UseCookie.cleanup (mkUnsubscriber "theme" 1%nat) w2 = Ret tt w3
       /\ callbacks "theme" w3 = [].
Proof.
  intros h1 h2 w w1 w2.
  assert (Hn : inherited "theme" = false) by (vm_compute; reflexivity).
  assert (Hcb : callbacks "theme" w = []) by (vm_compute; reflexivity).
  assert (Hfresh : UseCookie.hook_listener h1 ∉ callbacks (UseCookie.hook_name h1) w).
  { change (1%nat ∉ callbacks "theme" w). rewrite Hcb. apply not_elem_of_nil. }
  assert (He1 : UseCookie.effect h1 w = Ret (VStr "light", mkUnsubscriber "theme" 1%nat) w1).
  { apply (effect_Ret h1 w (VStr "light") Hn). apply get_absent. vm_compute. reflexivity. }
  assert (He2 : UseCookie.effect h2 w1 = Ret (VStr "light", mkUnsubscriber "theme" 2%nat) w2).
  { apply (effect_Ret h2 w1 (VStr "light") Hn). apply get_absent. vm_compute. reflexivity. }
  destruct (cleanup_of_first_hook_silences_second (P := Ref.platform) h1 h2 _ _ _ _ w w1 w2
              eq_refl Hfresh He1 He2) as (Hboth & w3 & Hc & Hrest).
  split.
  - etransitivity; [exact Hboth | vm_compute; reflexivity].
  - exists w3. split; [exact Hc|].
    etransitivity; [exact Hrest | exact Hcb].
Defined.

Lemma only_subscribed_callbacks_are_called_witness :
  let ops := [OpSubscribe "theme" 1%nat; OpSubscribe "lang" 2%nat; OpAssign "theme=dark"] in
  exists name, In (OpSubscribe name 1%nat) ops.
Proof.
  intros ops.
  destruct (only_subscribed_callbacks_are_called (P := Ref.platform) ops ∅ true true)
    as [_ H].
  assert (Hc : In (EvCall 1%nat (VStr "dark") VNull) (trace (run ops (init ∅ true true))))
    by (vm_compute; right; right; right; right; left; reflexivity).
  exact (H 1%nat (VStr "dark") VNull Hc).
Defined.

Lemma member_name_blocks_writes_witness :
  let w := run [OpSubscribe "theme" 1%nat] (Ref.page true true) in
  Cookies.document_cookie_assign "toString=x" w = Throw TypeError w
  /\ Cookies.set "valueOf" (VNum 1) no_options w = Throw TypeError w.
Proof.
  intros w.
  assert (Hi : installed w = true) by (vm_compute; reflexivity).
  assert (Hs : codec_get "toString" (jar w) = Some FoundMember) by (vm_compute; reflexivity).
  assert (Hv : codec_get "valueOf" (jar w) = Some FoundMember) by (vm_compute; reflexivity).
  destruct (member_name_blocks_writes (P := Ref.platform) "toString" w Hi Hs) as [Ha _].
  destruct (member_name_blocks_writes (P := Ref.platform) "valueOf" w Hi Hv) as [_ Hb].
  split; [apply Ha | apply Hb]; vm_compute; reflexivity.
Defined.

End more_reference_runs.
